(** * ChatApp: call signaling state machine of src/app.js

    A shallow embedding of the [ChatApp] class of [src/app.js] (the browser
    chat client with WebRTC call signaling), followed by the properties of
    its call lifecycle.

    Modelling conventions.
    - The fields of [this] become the record [State]; DOM elements the code
      writes to are the sub-record [Dom].
    - The platform (WebSocket, RTCPeerConnection, media tracks, [alert]) is
      opaque: every call into it is appended to the log [effects], in program
      order, with the arguments it was handed.  Calls on an existing socket
      or engine are taken to succeed; [getUserMedia] may be refused.
    - Rendering of the chat pane, the roster list and the join form is left
      out; of the DOM, what the call lifecycle writes is kept, and the theme
      preference is modelled on its own.
    - Objects created by the platform (streams, peer connections) are named by
      fresh identifiers drawn from [nextId].
    - A task is a UI handler or a channel callback together with all of its
      [await] continuations; [step] runs one task the way it runs when no
      other task is started while it waits.  A JavaScript exception or
      rejected promise is [Throw]; the mutations made before it persist, as
      they do in the source.  For [initiateCall], whose call to
      [startLocalStream] is not awaited, the outcome reported is the one of
      that promise.
    - [run] chains tasks that do not overlap.  The browser can also start a
      task while another one waits at an [await]; such schedules are not
      runs.  Properties of one task are therefore stated for a task run
      without overlap, from an arbitrary state; properties over runs are
      stated only where no write of the program, wherever a task is
      suspended, could break them (a field that is only ever assigned one
      value, [close] called only by the synchronous [endCall]).  The section
      on overlapping tasks shows how a task started during a wait can break
      what holds for each task alone. *)

From Stdlib Require Import String List Bool Arith Lia.
Import ListNotations.
Local Open Scope string_scope.
Local Open Scope list_scope.

Module ChatApp.

(** ** JavaScript values *)

(** The values a string-typed field or message property takes in the source:
    a string, [null] (constructor, [endCall]) or [undefined] ([Array.find]
    without a match, an absent JSON property). *)
Inductive jsval : Type :=
| Undefined
| Null
| Str (s : string).

(** [a === b] *)
Definition strict_eq (a b : jsval) : bool :=
  match a, b with
  | Undefined, Undefined => true
  | Null, Null => true
  | Str x, Str y => String.eqb x y
  | _, _ => false
  end.

(** Truthiness: [undefined], [null] and the empty string are falsy. *)
Definition truthy (a : jsval) : bool :=
  match a with
  | Str s => negb (String.eqb s "")
  | _ => false
  end.

(** Template-literal interpolation [`${a}`]. *)
Definition to_text (a : jsval) : string :=
  match a with
  | Undefined => "undefined"
  | Null => "null"
  | Str s => s
  end.

(** ** Platform objects *)

Definition Candidate := nat.

(** A session description is opaque to the application: either one received
    in a message, or the one a local engine produced. *)
Inductive Sdp : Type :=
| RemoteSdp (n : nat)
| LocalOffer (pc : nat)
| LocalAnswer (pc : nat).

Inductive TrackKind : Type := AudioTrack | VideoTrack.

Definition Track : Type := (nat * TrackKind)%type.

(** A [MediaStream] returned by [getUserMedia({audio: true, video: ...})]. *)
Record Stream : Type := {
  stream_id : nat;
  stream_video : bool;
  audio_enabled : bool
}.

Definition getAudioTracks (st : Stream) : list Track :=
  [(stream_id st, AudioTrack)].

Definition getTracks (st : Stream) : list Track :=
  getAudioTracks st ++ (if stream_video st then [(stream_id st, VideoTrack)] else []).

(** ** Channel messages (the objects passed to [JSON.stringify] and returned
    by [JSON.parse]), by their [type] tag. *)
Inductive Msg : Type :=
| ChatMessage (user : jsval) (content : string)
| Join (online : list string)
| Leave (online : list string)
| CallOffer (from_user to_user : jsval) (call_type : jsval) (sdp : Sdp)
| CallAnswer (from_user to_user : jsval) (accepted : bool) (sdp : option Sdp)
| IceCandidate (from_user to_user : jsval) (candidate : Candidate)
| Unknown (type : string).

(** The [call_offer] object kept in [this.pendingOffer]. *)
Record Offer : Type := {
  offer_from_user : jsval;
  offer_to_user : jsval;
  offer_call_type : jsval;
  offer_sdp : Sdp
}.

Inductive MediaFailure : Type := NotAllowed | NotFound.

(** What [navigator.mediaDevices.getUserMedia] answers. *)
Inductive MediaResult : Type :=
| Granted
| Refused (why : MediaFailure).

Inductive Error : Type :=
| TypeError (what : string)
| MediaAcquisitionError (why : MediaFailure).

(** Calls into the platform.  [WsSend] also records the value [this.isCaller]
    had when [ws.send] was called. *)
Inductive Effect : Type :=
| WsSend (as_caller : bool) (m : Msg)
| Alert (text : string)
| UiChat (user : jsval) (content : string)
| UiSystem (content : string)
| TrackStop (t : Track)
| PcNew (pc : nat)
| PcAddTrack (pc : nat) (t : Track)
| PcCreateOffer (pc : nat)
| PcCreateAnswer (pc : nat)
| PcSetLocalDescription (pc : nat) (d : Sdp)
| PcSetRemoteDescription (pc : nat) (d : option Sdp)
| PcAddIceCandidate (pc : nat) (c : Candidate)
| PcClose (pc : nat).

(** ** Application state *)

Record Dom : Type := {
  callOverlayHidden : bool;
  incomingCallModalHidden : bool;
  callInfo : string;
  localVideoSrc : option nat;
  remoteVideoSrc : option nat;
  muteBtnText : option string
}.

Record Platform : Type := {
  nextId : nat;
  effects : list Effect
}.

Record State : Type := {
  ws : bool;
  currentRoom : jsval;
  currentUsername : jsval;
  isConnected : bool;
  peerConnection : option nat;
  localStream : option Stream;
  remoteStream : option Stream;
  currentPeer : jsval;
  isCaller : bool;
  pendingRemoteCandidates : list Candidate;
  remoteDescriptionSet : bool;
  onlineUsers : option (list string);
  pendingOffer : option Offer;
  dom : Dom;
  platform : Platform
}.

Definition set_callOverlayHidden v (s : Dom) : Dom :=
  {| callOverlayHidden := v; incomingCallModalHidden := incomingCallModalHidden s; callInfo
     := callInfo s; localVideoSrc := localVideoSrc s; remoteVideoSrc := remoteVideoSrc s;
     muteBtnText := muteBtnText s |}.

Definition set_incomingCallModalHidden v (s : Dom) : Dom :=
  {| callOverlayHidden := callOverlayHidden s; incomingCallModalHidden := v; callInfo :=
     callInfo s; localVideoSrc := localVideoSrc s; remoteVideoSrc := remoteVideoSrc s;
     muteBtnText := muteBtnText s |}.

Definition set_callInfo v (s : Dom) : Dom :=
  {| callOverlayHidden := callOverlayHidden s; incomingCallModalHidden :=
     incomingCallModalHidden s; callInfo := v; localVideoSrc := localVideoSrc s;
     remoteVideoSrc := remoteVideoSrc s; muteBtnText := muteBtnText s |}.

Definition set_localVideoSrc v (s : Dom) : Dom :=
  {| callOverlayHidden := callOverlayHidden s; incomingCallModalHidden :=
     incomingCallModalHidden s; callInfo := callInfo s; localVideoSrc := v; remoteVideoSrc :=
     remoteVideoSrc s; muteBtnText := muteBtnText s |}.

Definition set_remoteVideoSrc v (s : Dom) : Dom :=
  {| callOverlayHidden := callOverlayHidden s; incomingCallModalHidden :=
     incomingCallModalHidden s; callInfo := callInfo s; localVideoSrc := localVideoSrc s;
     remoteVideoSrc := v; muteBtnText := muteBtnText s |}.

Definition set_muteBtnText v (s : Dom) : Dom :=
  {| callOverlayHidden := callOverlayHidden s; incomingCallModalHidden :=
     incomingCallModalHidden s; callInfo := callInfo s; localVideoSrc := localVideoSrc s;
     remoteVideoSrc := remoteVideoSrc s; muteBtnText := v |}.

Definition set_nextId v (s : Platform) : Platform :=
  {| nextId := v; effects := effects s |}.

Definition set_effects v (s : Platform) : Platform :=
  {| nextId := nextId s; effects := v |}.

Definition set_ws v (s : State) : State :=
  {| ws := v; currentRoom := currentRoom s; currentUsername := currentUsername s; isConnected
     := isConnected s; peerConnection := peerConnection s; localStream := localStream s;
     remoteStream := remoteStream s; currentPeer := currentPeer s; isCaller := isCaller s;
     pendingRemoteCandidates := pendingRemoteCandidates s; remoteDescriptionSet :=
     remoteDescriptionSet s; onlineUsers := onlineUsers s; pendingOffer := pendingOffer s;
     dom := dom s; platform := platform s |}.

Definition set_currentRoom v (s : State) : State :=
  {| ws := ws s; currentRoom := v; currentUsername := currentUsername s; isConnected :=
     isConnected s; peerConnection := peerConnection s; localStream := localStream s;
     remoteStream := remoteStream s; currentPeer := currentPeer s; isCaller := isCaller s;
     pendingRemoteCandidates := pendingRemoteCandidates s; remoteDescriptionSet :=
     remoteDescriptionSet s; onlineUsers := onlineUsers s; pendingOffer := pendingOffer s;
     dom := dom s; platform := platform s |}.

Definition set_currentUsername v (s : State) : State :=
  {| ws := ws s; currentRoom := currentRoom s; currentUsername := v; isConnected :=
     isConnected s; peerConnection := peerConnection s; localStream := localStream s;
     remoteStream := remoteStream s; currentPeer := currentPeer s; isCaller := isCaller s;
     pendingRemoteCandidates := pendingRemoteCandidates s; remoteDescriptionSet :=
     remoteDescriptionSet s; onlineUsers := onlineUsers s; pendingOffer := pendingOffer s;
     dom := dom s; platform := platform s |}.

Definition set_isConnected v (s : State) : State :=
  {| ws := ws s; currentRoom := currentRoom s; currentUsername := currentUsername s;
     isConnected := v; peerConnection := peerConnection s; localStream := localStream s;
     remoteStream := remoteStream s; currentPeer := currentPeer s; isCaller := isCaller s;
     pendingRemoteCandidates := pendingRemoteCandidates s; remoteDescriptionSet :=
     remoteDescriptionSet s; onlineUsers := onlineUsers s; pendingOffer := pendingOffer s;
     dom := dom s; platform := platform s |}.

Definition set_peerConnection v (s : State) : State :=
  {| ws := ws s; currentRoom := currentRoom s; currentUsername := currentUsername s;
     isConnected := isConnected s; peerConnection := v; localStream := localStream s;
     remoteStream := remoteStream s; currentPeer := currentPeer s; isCaller := isCaller s;
     pendingRemoteCandidates := pendingRemoteCandidates s; remoteDescriptionSet :=
     remoteDescriptionSet s; onlineUsers := onlineUsers s; pendingOffer := pendingOffer s;
     dom := dom s; platform := platform s |}.

Definition set_localStream v (s : State) : State :=
  {| ws := ws s; currentRoom := currentRoom s; currentUsername := currentUsername s;
     isConnected := isConnected s; peerConnection := peerConnection s; localStream := v;
     remoteStream := remoteStream s; currentPeer := currentPeer s; isCaller := isCaller s;
     pendingRemoteCandidates := pendingRemoteCandidates s; remoteDescriptionSet :=
     remoteDescriptionSet s; onlineUsers := onlineUsers s; pendingOffer := pendingOffer s;
     dom := dom s; platform := platform s |}.

Definition set_remoteStream v (s : State) : State :=
  {| ws := ws s; currentRoom := currentRoom s; currentUsername := currentUsername s;
     isConnected := isConnected s; peerConnection := peerConnection s; localStream :=
     localStream s; remoteStream := v; currentPeer := currentPeer s; isCaller := isCaller s;
     pendingRemoteCandidates := pendingRemoteCandidates s; remoteDescriptionSet :=
     remoteDescriptionSet s; onlineUsers := onlineUsers s; pendingOffer := pendingOffer s;
     dom := dom s; platform := platform s |}.

Definition set_currentPeer v (s : State) : State :=
  {| ws := ws s; currentRoom := currentRoom s; currentUsername := currentUsername s;
     isConnected := isConnected s; peerConnection := peerConnection s; localStream :=
     localStream s; remoteStream := remoteStream s; currentPeer := v; isCaller := isCaller s;
     pendingRemoteCandidates := pendingRemoteCandidates s; remoteDescriptionSet :=
     remoteDescriptionSet s; onlineUsers := onlineUsers s; pendingOffer := pendingOffer s;
     dom := dom s; platform := platform s |}.

Definition set_isCaller v (s : State) : State :=
  {| ws := ws s; currentRoom := currentRoom s; currentUsername := currentUsername s;
     isConnected := isConnected s; peerConnection := peerConnection s; localStream :=
     localStream s; remoteStream := remoteStream s; currentPeer := currentPeer s; isCaller :=
     v; pendingRemoteCandidates := pendingRemoteCandidates s; remoteDescriptionSet :=
     remoteDescriptionSet s; onlineUsers := onlineUsers s; pendingOffer := pendingOffer s;
     dom := dom s; platform := platform s |}.

Definition set_pendingRemoteCandidates v (s : State) : State :=
  {| ws := ws s; currentRoom := currentRoom s; currentUsername := currentUsername s;
     isConnected := isConnected s; peerConnection := peerConnection s; localStream :=
     localStream s; remoteStream := remoteStream s; currentPeer := currentPeer s; isCaller :=
     isCaller s; pendingRemoteCandidates := v; remoteDescriptionSet := remoteDescriptionSet
     s; onlineUsers := onlineUsers s; pendingOffer := pendingOffer s; dom := dom s; platform
     := platform s |}.

Definition set_remoteDescriptionSet v (s : State) : State :=
  {| ws := ws s; currentRoom := currentRoom s; currentUsername := currentUsername s;
     isConnected := isConnected s; peerConnection := peerConnection s; localStream :=
     localStream s; remoteStream := remoteStream s; currentPeer := currentPeer s; isCaller :=
     isCaller s; pendingRemoteCandidates := pendingRemoteCandidates s; remoteDescriptionSet
     := v; onlineUsers := onlineUsers s; pendingOffer := pendingOffer s; dom := dom s;
     platform := platform s |}.

Definition set_onlineUsers v (s : State) : State :=
  {| ws := ws s; currentRoom := currentRoom s; currentUsername := currentUsername s;
     isConnected := isConnected s; peerConnection := peerConnection s; localStream :=
     localStream s; remoteStream := remoteStream s; currentPeer := currentPeer s; isCaller :=
     isCaller s; pendingRemoteCandidates := pendingRemoteCandidates s; remoteDescriptionSet
     := remoteDescriptionSet s; onlineUsers := v; pendingOffer := pendingOffer s; dom := dom
     s; platform := platform s |}.

Definition set_pendingOffer v (s : State) : State :=
  {| ws := ws s; currentRoom := currentRoom s; currentUsername := currentUsername s;
     isConnected := isConnected s; peerConnection := peerConnection s; localStream :=
     localStream s; remoteStream := remoteStream s; currentPeer := currentPeer s; isCaller :=
     isCaller s; pendingRemoteCandidates := pendingRemoteCandidates s; remoteDescriptionSet
     := remoteDescriptionSet s; onlineUsers := onlineUsers s; pendingOffer := v; dom := dom
     s; platform := platform s |}.

Definition set_dom v (s : State) : State :=
  {| ws := ws s; currentRoom := currentRoom s; currentUsername := currentUsername s;
     isConnected := isConnected s; peerConnection := peerConnection s; localStream :=
     localStream s; remoteStream := remoteStream s; currentPeer := currentPeer s; isCaller :=
     isCaller s; pendingRemoteCandidates := pendingRemoteCandidates s; remoteDescriptionSet
     := remoteDescriptionSet s; onlineUsers := onlineUsers s; pendingOffer := pendingOffer s;
     dom := v; platform := platform s |}.

Definition set_platform v (s : State) : State :=
  {| ws := ws s; currentRoom := currentRoom s; currentUsername := currentUsername s;
     isConnected := isConnected s; peerConnection := peerConnection s; localStream :=
     localStream s; remoteStream := remoteStream s; currentPeer := currentPeer s; isCaller :=
     isCaller s; pendingRemoteCandidates := pendingRemoteCandidates s; remoteDescriptionSet
     := remoteDescriptionSet s; onlineUsers := onlineUsers s; pendingOffer := pendingOffer s;
     dom := dom s; platform := v |}.

(** The constructor.  [onlineUsers] and [pendingOffer] are not assigned there
    and start [undefined]; the call overlay and the incoming-call modal carry
    the class [hidden] until the code removes it; the mute button keeps the
    caption the page is served with ([None]) until the code writes one. *)
Definition init : State :=
  {| ws := false; currentRoom := Null; currentUsername := Null; isConnected := false;
     peerConnection := None; localStream := None; remoteStream := None;
     currentPeer := Null; isCaller := false;
     pendingRemoteCandidates := []; remoteDescriptionSet := false;
     onlineUsers := None; pendingOffer := None;
     dom := {| callOverlayHidden := true; incomingCallModalHidden := true;
               callInfo := ""; localVideoSrc := None; remoteVideoSrc := None;
               muteBtnText := None |};
     platform := {| nextId := 0; effects := [] |} |}.

(** ** The task monad: state that survives an exception *)

Inductive Outcome (A : Type) : Type :=
| Ret (a : A)
| Throw (e : Error).
Arguments Ret {A} a.
Arguments Throw {A} e.

Definition M (A : Type) : Type := State -> Outcome A * State.

Definition ret {A} (a : A) : M A := fun s => (Ret a, s).

Definition throw {A} (e : Error) : M A := fun s => (Throw e, s).

Definition bind {A B} (c : M A) (k : A -> M B) : M B :=
  fun s =>
    match c s with
    | (Ret a, s') => k a s'
    | (Throw e, s') => (Throw e, s')
    end.

Definition get {A} (f : State -> A) : M A := fun s => (Ret (f s), s).

Definition modify (f : State -> State) : M unit := fun s => (Ret tt, f s).

Declare Scope task_scope.
Delimit Scope task_scope with task.
Notation "x <- c ;; k" := (bind c (fun x => k))
  (at level 61, c at next level, right associativity) : task_scope.
Notation "c ;; k" := (bind c (fun _ => k))
  (at level 61, right associativity) : task_scope.
Local Open Scope task_scope.

Definition on_dom (f : Dom -> Dom) : M unit :=
  modify (fun s => set_dom (f (dom s)) s).

Definition log (e : Effect) : M unit :=
  modify (fun s => set_platform (set_effects (effects (platform s) ++ [e]) (platform s)) s).

Definition fresh : M nat :=
  fun s => (Ret (nextId (platform s)),
            set_platform (set_nextId (S (nextId (platform s))) (platform s)) s).

Fixpoint forEach {A} (l : list A) (f : A -> M unit) : M unit :=
  match l with
  | [] => ret tt
  | a :: l' => f a ;; forEach l' f
  end.

(** [this.ws.send(JSON.stringify(m))] *)
Definition ws_send (m : Msg) : M unit :=
  w <- get ws ;;
  if w then (r <- get isCaller ;; log (WsSend r m))
  else throw (TypeError "this.ws is null").

(** A method call on [this.peerConnection]. *)
Definition the_peerConnection : M nat :=
  pc <- get peerConnection ;;
  match pc with
  | Some p => ret p
  | None => throw (TypeError "this.peerConnection is null")
  end.

(** ** The methods of [ChatApp] *)

(** [joinRoom], with the trimmed form inputs and whether the socket opens. *)
Definition joinRoom (roomName username : string) (opens : bool) : M unit :=
  if String.eqb roomName "" || String.eqb username "" then
    log (Alert "Please enter both room name and username")
  else
    modify (set_currentRoom (Str roomName)) ;;
    modify (set_currentUsername (Str username)) ;;
    modify (set_ws true) ;;
    if opens then modify (set_isConnected true)
    else log (Alert "Failed to connect.").

(** [ws.onclose] *)
Definition onclose : M unit :=
  modify (set_isConnected false) ;;
  log (UiSystem "Connection closed.").

Definition updateUsersList (users : list string) : M unit :=
  modify (set_onlineUsers (Some users)).

(** [sendMessage], with the trimmed input. *)
Definition sendMessage (content : string) : M unit :=
  if String.eqb content "" then ret tt
  else ws_send (ChatMessage Undefined content).

Definition createPeerConnection : M unit :=
  p <- fresh ;;
  log (PcNew p) ;;
  modify (set_peerConnection (Some p)).

(** [peerConnection.onicecandidate] *)
Definition onicecandidate (candidate : option Candidate) : M unit :=
  match candidate with
  | Some c =>
      me <- get currentUsername ;;
      peer <- get currentPeer ;;
      ws_send (IceCandidate me peer c)
  | None => ret tt
  end.

(** [peerConnection.ontrack] *)
Definition ontrack (stream : nat) : M unit :=
  on_dom (set_remoteVideoSrc (Some stream)).

Definition getUserMedia (video : bool) (r : MediaResult) : M Stream :=
  match r with
  | Granted =>
      i <- fresh ;;
      ret {| stream_id := i; stream_video := video; audio_enabled := true |}
  | Refused why => throw (MediaAcquisitionError why)
  end.

Definition startLocalStream (type : jsval) (media : MediaResult) : M unit :=
  st <- getUserMedia (strict_eq type (Str "video")) media ;;
  modify (set_localStream (Some st)) ;;
  on_dom (set_localVideoSrc (Some (stream_id st))) ;;
  createPeerConnection ;;
  forEach (getTracks st) (fun t => p <- the_peerConnection ;; log (PcAddTrack p t)) ;;
  caller <- get isCaller ;;
  if caller then
    p <- the_peerConnection ;;
    log (PcCreateOffer p) ;;
    let offer := LocalOffer p in
    p' <- the_peerConnection ;;
    log (PcSetLocalDescription p' offer) ;;
    me <- get currentUsername ;;
    peer <- get currentPeer ;;
    ws_send (CallOffer me peer type offer)
  else ret tt.

Definition find_peer (users : list string) (me : jsval) : jsval :=
  match find (fun u => negb (strict_eq (Str u) me)) users with
  | Some u => Str u
  | None => Undefined
  end.

Definition initiateCall (type : string) (media : MediaResult) : M unit :=
  users <- get onlineUsers ;;
  match users with
  | None => throw (TypeError "this.onlineUsers is undefined")
  | Some us =>
      me <- get currentUsername ;;
      modify (set_currentPeer (find_peer us me)) ;;
      peer <- get currentPeer ;;
      if negb (truthy peer) then log (Alert "No one to call.")
      else
        modify (set_isCaller true) ;;
        on_dom (set_callOverlayHidden false) ;;
        startLocalStream (Str type) media
  end.

Definition showIncomingCall (offer : Offer) : M unit :=
  modify (set_pendingOffer (Some offer)) ;;
  on_dom (set_callInfo
    (to_text (offer_from_user offer) ++ " is calling ("
       ++ to_text (offer_call_type offer) ++ ")")) ;;
  on_dom (set_incomingCallModalHidden false).

(** [for (const c of this.pendingRemoteCandidates)
       await this.peerConnection.addIceCandidate(c);] *)
Definition flushCandidates : M unit :=
  cs <- get pendingRemoteCandidates ;;
  forEach cs (fun c => p <- the_peerConnection ;; log (PcAddIceCandidate p c)).

Definition answerCall (accepted : bool) (media : MediaResult) : M unit :=
  on_dom (set_incomingCallModalHidden true) ;;
  offer <- get pendingOffer ;;
  modify (set_pendingOffer None) ;;
  match offer with
  | None => ret tt
  | Some o =>
      if negb accepted then
        me <- get currentUsername ;;
        ws_send (CallAnswer me (offer_from_user o) false None)
      else
        modify (set_currentPeer (offer_from_user o)) ;;
        modify (set_isCaller false) ;;
        on_dom (set_callOverlayHidden false) ;;
        startLocalStream (offer_call_type o) media ;;
        p <- the_peerConnection ;;
        log (PcSetRemoteDescription p (Some (offer_sdp o))) ;;
        modify (set_remoteDescriptionSet true) ;;
        flushCandidates ;;
        modify (set_pendingRemoteCandidates []) ;;
        p <- the_peerConnection ;;
        log (PcCreateAnswer p) ;;
        let answer := LocalAnswer p in
        p' <- the_peerConnection ;;
        log (PcSetLocalDescription p' answer) ;;
        me <- get currentUsername ;;
        ws_send (CallAnswer me (offer_from_user o) true (Some answer))
  end.

Definition stopTracks (st : option Stream) : M unit :=
  match st with
  | Some x => forEach (getTracks x) (fun t => log (TrackStop t))
  | None => ret tt
  end.

Definition endCall : M unit :=
  on_dom (set_callOverlayHidden true) ;;
  ls <- get localStream ;;
  stopTracks ls ;;
  rs <- get remoteStream ;;
  stopTracks rs ;;
  pc <- get peerConnection ;;
  match pc with Some p => log (PcClose p) | None => ret tt end ;;
  on_dom (set_localVideoSrc None) ;;
  on_dom (set_remoteVideoSrc None) ;;
  modify (set_peerConnection None) ;;
  modify (set_localStream None) ;;
  modify (set_remoteStream None) ;;
  modify (set_isCaller false) ;;
  modify (set_currentPeer Null).

Definition handleCallAnswer (accepted : bool) (sdp : option Sdp) : M unit :=
  if negb accepted then endCall
  else
    p <- the_peerConnection ;;
    log (PcSetRemoteDescription p sdp) ;;
    modify (set_remoteDescriptionSet true) ;;
    flushCandidates ;;
    modify (set_pendingRemoteCandidates []).

(** The two captions of the mute button. *)
Definition enabledCaption : string := "ðŸ”‡".

Definition disabledCaption : string := "ðŸ”ˆ".

Definition muteCaption (enabled : bool) : string :=
  if enabled then enabledCaption else disabledCaption.

Definition toggleMute : M unit :=
  ls <- get localStream ;;
  match ls with
  | None => ret tt
  | Some st =>
      let enabled := negb (audio_enabled st) in
      modify (set_localStream
        (Some {| stream_id := stream_id st; stream_video := stream_video st;
                 audio_enabled := enabled |})) ;;
      on_dom (set_muteBtnText (Some (muteCaption enabled)))
  end.

Definition handleMessage (data : Msg) : M unit :=
  match data with
  | ChatMessage user content => log (UiChat user content)
  | Join online => updateUsersList online
  | Leave online => updateUsersList online
  | CallOffer from_user to_user call_type sdp =>
      me <- get currentUsername ;;
      if strict_eq to_user me then
        showIncomingCall {| offer_from_user := from_user; offer_to_user := to_user;
                            offer_call_type := call_type; offer_sdp := sdp |}
      else ret tt
  | CallAnswer _ _ accepted sdp => handleCallAnswer accepted sdp
  | IceCandidate _ to_user cand =>
      me <- get currentUsername ;;
      pc <- get peerConnection ;;
      match strict_eq to_user me, pc with
      | true, Some p =>
          applied <- get remoteDescriptionSet ;;
          if applied then log (PcAddIceCandidate p cand)
          else modify (fun s =>
                 set_pendingRemoteCandidates (pendingRemoteCandidates s ++ [cand]) s)
      | _, _ => ret tt
      end
  | Unknown _ => ret tt
  end.

(** ** Tasks and runs *)

Inductive Event : Type :=
| UiJoinRoom (roomName username : string) (opens : bool)
| UiSendMessage (content : string)
| UiInitiateCall (type : string) (media : MediaResult)
| UiAnswerCall (accepted : bool) (media : MediaResult)
| UiToggleMute
| UiEndCall
| WsMessage (data : Msg)
| WsClose
| PcIceCandidate (candidate : option Candidate)
| PcTrack (stream : nat).

Definition step (e : Event) : M unit :=
  match e with
  | UiJoinRoom r u o => joinRoom r u o
  | UiSendMessage c => sendMessage c
  | UiInitiateCall t m => initiateCall t m
  | UiAnswerCall a m => answerCall a m
  | UiToggleMute => toggleMute
  | UiEndCall => endCall
  | WsMessage d => handleMessage d
  | WsClose => onclose
  | PcIceCandidate c => onicecandidate c
  | PcTrack st => ontrack st
  end.

(** The state a task leaves behind, whether it returned or threw. *)
Definition exec {A} (c : M A) (s : State) : State := snd (c s).

Definition outcome {A} (c : M A) (s : State) : Outcome A := fst (c s).

(** A sequence of tasks, each one finished before the next one starts. *)
Definition run (es : list Event) (s : State) : State :=
  fold_left (fun s e => exec (step e) s) es s.

Definition reachable (s : State) : Prop := exists es, s = run es init.

(** ** Overlapping tasks

    The two tasks that start a call wait first in [getUserMedia].  What each
    of them does up to that call, and what [answerCall] does once the media
    request is answered, is given here, so that another task can be placed
    in between. *)

(** [initiateCall] up to the call of [startLocalStream]; [true] when it gets
    there. *)
Definition initiateCall_begin (type : string) : M bool :=
  users <- get onlineUsers ;;
  match users with
  | None => throw (TypeError "this.onlineUsers is undefined")
  | Some us =>
      me <- get currentUsername ;;
      modify (set_currentPeer (find_peer us me)) ;;
      peer <- get currentPeer ;;
      if negb (truthy peer) then log (Alert "No one to call.") ;; ret false
      else
        modify (set_isCaller true) ;;
        on_dom (set_callOverlayHidden false) ;;
        ret true
  end.

(** [answerCall] up to the call of [startLocalStream]; the offer when it
    gets there. *)
Definition answerCall_begin (accepted : bool) : M (option Offer) :=
  on_dom (set_incomingCallModalHidden true) ;;
  offer <- get pendingOffer ;;
  modify (set_pendingOffer None) ;;
  match offer with
  | None => ret None
  | Some o =>
      if negb accepted then
        me <- get currentUsername ;;
        ws_send (CallAnswer me (offer_from_user o) false None) ;;
        ret None
      else
        modify (set_currentPeer (offer_from_user o)) ;;
        modify (set_isCaller false) ;;
        on_dom (set_callOverlayHidden false) ;;
        ret (Some o)
  end.

(** [answerCall] from the answer of [getUserMedia] on. *)
Definition answerCall_resume (o : Offer) (media : MediaResult) : M unit :=
  startLocalStream (offer_call_type o) media ;;
  p <- the_peerConnection ;;
  log (PcSetRemoteDescription p (Some (offer_sdp o))) ;;
  modify (set_remoteDescriptionSet true) ;;
  flushCandidates ;;
  modify (set_pendingRemoteCandidates []) ;;
  p <- the_peerConnection ;;
  log (PcCreateAnswer p) ;;
  let answer := LocalAnswer p in
  p' <- the_peerConnection ;;
  log (PcSetLocalDescription p' answer) ;;
  me <- get currentUsername ;;
  ws_send (CallAnswer me (offer_from_user o) true (Some answer)).

(** ** Vocabulary of the properties *)

Definition add_effects (es : list Effect) (s : State) : State :=
  set_platform (set_effects (effects (platform s) ++ es) (platform s)) s.

Definition stops (st : option Stream) : list Effect :=
  match st with
  | Some x => map TrackStop (getTracks x)
  | None => []
  end.

(** The release calls [endCall] makes in state [s]. *)
Definition released (s : State) : list Effect :=
  stops (localStream s) ++ stops (remoteStream s)
    ++ match peerConnection s with Some p => [PcClose p] | None => [] end.

(** No call: the values the constructor gives the call fields. *)
Definition idle (s : State) : Prop :=
  peerConnection s = None /\ localStream s = None /\ remoteStream s = None /\
  isCaller s = false /\ currentPeer s = Null /\
  callOverlayHidden (dom s) = true /\
  localVideoSrc (dom s) = None /\ remoteVideoSrc (dom s) = None.

(** The fields that make up the call session. *)
Definition session (s : State) : option nat * jsval * bool * option Stream :=
  (peerConnection s, currentPeer s, isCaller s, localStream s).

Definition ice_from (me : jsval) (fc : jsval * Candidate) : Event :=
  WsMessage (IceCandidate (fst fc) me (snd fc)).

Definition is_ice_candidate (e : Event) : bool :=
  match e with
  | WsMessage (IceCandidate _ _ _) => true
  | _ => false
  end.

(** Role discipline of one [ws.send]: an offer goes out with [isCaller] set,
    an accepting answer with [isCaller] clear. *)
Definition role_ok (e : Effect) : Prop :=
  match e with
  | WsSend r (CallOffer _ _ _ _) => r = true
  | WsSend r (CallAnswer _ _ true _) => r = false
  | _ => True
  end.

(** The candidates handed to engine [p], in the order of the calls. *)
Definition ice_applied (p : nat) (l : list Effect) : list Candidate :=
  flat_map (fun e => match e with
                     | PcAddIceCandidate q c => if Nat.eqb q p then [c] else []
                     | _ => []
                     end) l.

(** The role invariant as the specification words it: no answer at all goes
    out with [isCaller] set. *)
Definition role_strict (e : Effect) : Prop :=
  match e with
  | WsSend r (CallOffer _ _ _ _) => r = true
  | WsSend r (CallAnswer _ _ _ _) => r = false
  | _ => True
  end.

(** Identifiers in use are below the allocation counter. *)
Definition ids_fresh (s : State) : Prop :=
  match peerConnection s with Some p => p < nextId (platform s) | None => True end /\
  match localStream s with Some st => stream_id st < nextId (platform s) | None => True end.

(** What one task may do to the allocation counter, the flag and the log. *)
Definition step_summary (s s' : State) : Prop :=
  (exists new, effects (platform s') = effects (platform s) ++ new /\ Forall role_ok new) /\
  (remoteDescriptionSet s = true -> remoteDescriptionSet s' = true) /\
  (remoteStream s = None -> remoteStream s' = None) /\
  (ids_fresh s -> ids_fresh s').

(** The stream and the engine [startLocalStream] creates in state [s]. *)
Definition new_stream (type : jsval) (s : State) : Stream :=
  {| stream_id := nextId (platform s);
     stream_video := strict_eq type (Str "video");
     audio_enabled := true |}.

Definition new_pc (s : State) : nat := S (nextId (platform s)).

(** The state [startLocalStream] reaches once media is granted and the engine
    is set up, before any offer is made. *)
Definition started (type : jsval) (s : State) : State :=
  set_peerConnection (Some (new_pc s))
    (set_dom (set_localVideoSrc (Some (nextId (platform s))) (dom s))
       (set_localStream (Some (new_stream type s))
          (set_platform
             {| nextId := S (S (nextId (platform s)));
                effects := effects (platform s)
                             ++ PcNew (new_pc s)
                                  :: map (PcAddTrack (new_pc s))
                                       (getTracks (new_stream type s)) |} s))).

(** The state in which [initiateCall] and [answerCall] ask for media. *)
Definition dialing (peer : jsval) (s : State) : State :=
  set_dom (set_callOverlayHidden false (dom s))
    (set_isCaller true (set_currentPeer peer s)).

Definition accepting (o : Offer) (s : State) : State :=
  set_dom (set_callOverlayHidden false (set_incomingCallModalHidden true (dom s)))
    (set_isCaller false (set_currentPeer (offer_from_user o) (set_pendingOffer None s))).

(** What the engine is handed when the remote description is applied: the
    description, then the buffered candidates. *)
Definition flush_calls (p : nat) (d : option Sdp) (q : list Candidate) : list Effect :=
  PcSetRemoteDescription p d :: map (PcAddIceCandidate p) q.

Definition answer_calls (p : nat) : list Effect :=
  [PcCreateAnswer p; PcSetLocalDescription p (LocalAnswer p)].

(** ** Scenario states *)

Definition joined : State :=
  run [UiJoinRoom "lobby" "alice" true; WsMessage (Join ["alice"; "bob"; "carol"])] init.

(** alice has placed a video call to bob and waits for the answer. *)
Definition calling : State := run [UiInitiateCall "video" Granted] joined.

(** ... and meanwhile a candidate from bob and an offer from carol came in. *)
Definition calling_with_offer : State :=
  run [WsMessage (IceCandidate (Str "bob") (Str "alice") 7);
       WsMessage (CallOffer (Str "carol") (Str "alice") (Str "audio") (RemoteSdp 3))]
      calling.

(** alice turns carol's offer down while her own call to bob is up. *)
Definition declines_while_calling : list Event :=
  [UiJoinRoom "lobby" "alice" true; WsMessage (Join ["alice"; "bob"; "carol"]);
   UiInitiateCall "video" Granted;
   WsMessage (CallOffer (Str "carol") (Str "alice") (Str "audio") (RemoteSdp 3));
   UiAnswerCall false Granted].

(** bob accepts; alice then hangs up and calls again. *)
Definition answered : State :=
  exec (handleMessage (CallAnswer (Str "bob") (Str "alice") true (Some (RemoteSdp 1))))
       calling.

Definition second_call : State :=
  run [UiEndCall; UiInitiateCall "audio" Granted] answered.

(** ** Theme preference ([bindEvents], [toggleTheme])

    The part of the page these two touch: the [dark] class of the body, the
    caption of the toggle button, and the [theme] entry of [localStorage]
    ([None] when [getItem] answers [null]). *)

Record Theme : Type := {
  bodyDark : bool;
  toggleCaption : string;
  storedTheme : option string
}.

Definition darkCaption : string := "â˜€ï¸".

Definition lightCaption : string := "ðŸŒ™".

(** [a || b] on a stored string: [null] and the empty string are falsy. *)
Definition or_default (a : option string) (b : string) : string :=
  match a with
  | Some v => if String.eqb v "" then b else v
  | None => b
  end.

(** The theme block of [bindEvents]; [hasButton] tells whether the page has
    the toggle button. *)
Definition bindTheme (hasButton : bool) (t : Theme) : Theme :=
  if hasButton then
    let savedTheme := or_default (storedTheme t) "light" in
    if String.eqb savedTheme "dark" then
      {| bodyDark := true; toggleCaption := darkCaption; storedTheme := storedTheme t |}
    else t
  else t.

Definition toggleTheme (t : Theme) : Theme :=
  let isDark := negb (bodyDark t) in
  {| bodyDark := isDark;
     toggleCaption := if isDark then darkCaption else lightCaption;
     storedTheme := Some (if isDark then "dark" else "light") |}.

(** A page load: the document as served ([htmlDark], [htmlCaption]) with the
    storage left by the previous visit, then [bindEvents]. *)
Definition loadPage (htmlDark : bool) (htmlCaption : string) (hasButton : bool)
    (previous : Theme) : Theme :=
  bindTheme hasButton
    {| bodyDark := htmlDark; toggleCaption := htmlCaption;
       storedTheme := storedTheme previous |}.

(** ** Vocabulary of the further properties *)

(** The messages handed to [ws.send], oldest first. *)
Fixpoint sent (l : list Effect) : list Msg :=
  match l with
  | [] => []
  | WsSend _ m :: l' => m :: sent l'
  | _ :: l' => sent l'
  end.

(** The engines on which [close] was called, oldest first. *)
Fixpoint closes (l : list Effect) : list nat :=
  match l with
  | [] => []
  | PcClose p :: l' => p :: closes l'
  | _ :: l' => closes l'
  end.

Definition current_engine (s : State) : list nat :=
  match peerConnection s with
  | Some p => [p]
  | None => []
  end.

(** The tasks that reach [endCall]. *)
Definition closed_by (e : Event) (s : State) : list nat :=
  match e with
  | UiEndCall => current_engine s
  | WsMessage (CallAnswer _ _ false _) => current_engine s
  | _ => []
  end.

Definition from_me (me : jsval) (e : Effect) : Prop :=
  match e with
  | WsSend _ (CallOffer f _ _ _) => f = me
  | WsSend _ (CallAnswer f _ _ _) => f = me
  | WsSend _ (IceCandidate f _ _) => f = me
  | _ => True
  end.

Definition needs_socket (s : State) (e : Effect) : Prop :=
  match e with
  | WsSend _ _ => ws s = true
  | _ => True
  end.

(** The queue is only in use before the first remote description. *)
Definition queue_ok (s : State) : Prop :=
  remoteDescriptionSet s = true -> pendingRemoteCandidates s = [].

(** Engine, local stream and local preview exist together. *)
Definition media_coupled (s : State) : Prop :=
  match peerConnection s, localStream s with
  | Some _, Some st => localVideoSrc (dom s) = Some (stream_id st)
  | None, None => localVideoSrc (dom s) = None
  | _, _ => False
  end.

(** Chat, presence and connection tasks. *)
Definition is_chat_event (e : Event) : bool :=
  match e with
  | UiJoinRoom _ _ _ | UiSendMessage _ | WsClose | PcTrack _ | PcIceCandidate _ => true
  | WsMessage (ChatMessage _ _) | WsMessage (Join _) | WsMessage (Leave _)
  | WsMessage (Unknown _) => true
  | _ => false
  end.

(** The call state: session fields, pending offer, candidate queue, flag. *)
Definition call_state (s : State) :=
  (session s, remoteStream s, pendingOffer s, pendingRemoteCandidates s,
   remoteDescriptionSet s).

(** What one task may do to the counter, the log and the engine. *)
Definition step_frame (e : Event) (s s' : State) : Prop :=
  nextId (platform s) <= nextId (platform s') /\
  (exists new,
     effects (platform s') = effects (platform s) ++ new /\
     Forall (from_me (currentUsername s)) new /\
     Forall (needs_socket s) new /\
     closes new = closed_by e s) /\
  match peerConnection s' with
  | None => True
  | Some p =>
      closed_by e s = [] /\
      (peerConnection s = Some p \/
       nextId (platform s) <= p < nextId (platform s'))
  end /\
  (queue_ok s -> queue_ok s') /\
  (media_coupled s -> media_coupled s') /\
  (ws s = true -> ws s' = true).

(** Closing discipline of a log: no engine closed twice, and none closed
    that is still current or not yet created. *)
Definition closes_once (s : State) : Prop :=
  forall p,
    count_occ Nat.eq_dec (closes (effects (platform s))) p <= 1 /\
    (peerConnection s = Some p \/ nextId (platform s) <= p ->
     count_occ Nat.eq_dec (closes (effects (platform s))) p = 0).

(** carol's offer has reached alice; alice presses accept and, while the
    media request of [answerCall] is pending, presses the call button; then
    the media request is granted and [answerCall] goes on. *)
Definition carol_offer : Offer :=
  {| offer_from_user := Str "carol"; offer_to_user := Str "alice";
     offer_call_type := Str "audio"; offer_sdp := RemoteSdp 3 |}.

Definition overlapped : State :=
  exec (answerCall_resume carol_offer Granted)
    (exec (initiateCall_begin "video")
       (exec (answerCall_begin true)
          (exec (handleMessage
                   (CallOffer (Str "carol") (Str "alice") (Str "audio") (RemoteSdp 3)))
                joined))).

(** bob, in the same room. *)
Definition joined_bob : State :=
  run [UiJoinRoom "lobby" "bob" true; WsMessage (Join ["alice"; "bob"; "carol"])] init.

(** A call that is answered and ended, then a second call. *)
Definition second_call_trace : list Event :=
  [UiJoinRoom "lobby" "alice" true; WsMessage (Join ["alice"; "bob"; "carol"]);
   UiInitiateCall "video" Granted;
   WsMessage (CallAnswer (Str "bob") (Str "alice") true (Some (RemoteSdp 1)));
   UiEndCall; UiInitiateCall "audio" Granted].

(** ** Generic facts *)

Ltac open_state s :=
  let d := fresh "d" in
  let pf := fresh "pf" in
  destruct s as [? ? ? ? ? ? ? ? ? ? ? ? ? d pf]; destruct d, pf; cbn in *.

Lemma run_app (es1 es2 : list Event) (s : State) :
  run (es1 ++ es2) s = run es2 (run es1 s).
Proof. unfold run. apply fold_left_app. Qed.

Lemma reachable_init : reachable init.
Proof. exists []. reflexivity. Qed.

Lemma reachable_run (es : list Event) (s : State) :
  reachable s -> reachable (run es s).
Proof.
  intros [es0 ->]. exists (es0 ++ es). now rewrite run_app.
Qed.

Lemma forEach_log {A} (f : A -> Effect) (l : list A) (s : State) :
  forEach l (fun a => log (f a)) s = (Ret tt, add_effects (map f l) s).
Proof.
  revert s. induction l as [|a l IH]; intros s.
  - open_state s. unfold add_effects. cbn. now rewrite app_nil_r.
  - cbn [forEach map]. unfold bind at 1. cbn. rewrite IH.
    open_state s. unfold add_effects. cbn. now rewrite <- app_assoc.
Qed.

Lemma forEach_pc {A} (f : nat -> A -> Effect) (l : list A) (s : State) (p : nat) :
  peerConnection s = Some p ->
  forEach l (fun a => q <- the_peerConnection ;; log (f q a)) s
  = (Ret tt, add_effects (map (f p) l) s).
Proof.
  revert s. induction l as [|a l IH]; intros s H.
  - open_state s. unfold add_effects. cbn. now rewrite app_nil_r.
  - cbn [forEach map]. unfold bind at 1, the_peerConnection, bind, get. rewrite H.
    cbn. rewrite IH by (open_state s; exact H).
    open_state s. unfold add_effects. cbn. now rewrite <- app_assoc.
Qed.

(** Symbolic execution of a task, one primitive at a time. *)

Lemma bind_run {A B} (c : M A) (k : A -> M B) (s : State) :
  bind c k s = match c s with
               | (Ret a, s') => k a s'
               | (Throw e, s') => (Throw e, s')
               end.
Proof. reflexivity. Qed.

Lemma get_run {A} (f : State -> A) (s : State) : get f s = (Ret (f s), s).
Proof. reflexivity. Qed.

Lemma modify_run (f : State -> State) (s : State) : modify f s = (Ret tt, f s).
Proof. reflexivity. Qed.

Lemma on_dom_run (f : Dom -> Dom) (s : State) :
  on_dom f s = (Ret tt, set_dom (f (dom s)) s).
Proof. reflexivity. Qed.

Lemma log_run (e : Effect) (s : State) : log e s = (Ret tt, add_effects [e] s).
Proof. reflexivity. Qed.

Lemma ws_send_run (m : Msg) (s : State) :
  ws_send m s = if ws s then (Ret tt, add_effects [WsSend (isCaller s) m] s)
                else (Throw (TypeError "this.ws is null"), s).
Proof. unfold ws_send. rewrite bind_run, get_run. destruct (ws s); reflexivity. Qed.

Lemma the_peerConnection_run (s : State) (p : nat) :
  peerConnection s = Some p -> the_peerConnection s = (Ret p, s).
Proof. intros H. unfold the_peerConnection. rewrite bind_run, get_run, H. reflexivity. Qed.

Lemma getUserMedia_granted (video : bool) (s : State) :
  getUserMedia video Granted s
  = (Ret {| stream_id := nextId (platform s); stream_video := video;
            audio_enabled := true |},
     set_platform (set_nextId (S (nextId (platform s))) (platform s)) s).
Proof. reflexivity. Qed.

Lemma createPeerConnection_run (s : State) :
  createPeerConnection s
  = (Ret tt,
     set_peerConnection (Some (nextId (platform s)))
       (add_effects [PcNew (nextId (platform s))]
          (set_platform (set_nextId (S (nextId (platform s))) (platform s)) s))).
Proof. reflexivity. Qed.

Ltac task_step :=
  rewrite bind_run;
  first [ rewrite get_run | rewrite modify_run | rewrite on_dom_run | rewrite log_run
        | rewrite ws_send_run | rewrite getUserMedia_granted
        | rewrite createPeerConnection_run
        | erewrite the_peerConnection_run by reflexivity ];
  cbv beta iota.

Lemma endCall_run (s : State) :
  endCall s =
  (Ret tt,
   set_currentPeer Null (set_isCaller false (set_remoteStream None (set_localStream None
     (set_peerConnection None
        (set_dom {| callOverlayHidden := true;
                    incomingCallModalHidden := incomingCallModalHidden (dom s);
                    callInfo := callInfo (dom s);
                    localVideoSrc := None; remoteVideoSrc := None;
                    muteBtnText := muteBtnText (dom s) |}
           (add_effects (released s) s))))))).
Proof.
  unfold endCall, released, stopTracks, stops.
  open_state s.
  unfold bind at 1. cbn. unfold bind at 1. cbn.
  destruct localStream0 as [ls|], remoteStream0 as [rs|], peerConnection0 as [p|];
    unfold bind; cbn; rewrite ?forEach_log; cbn; rewrite ?forEach_log; cbn;
    unfold add_effects; cbn; rewrite <- ?app_assoc, ?app_nil_r; reflexivity.
Qed.


Lemma endCall_idle (s : State) : idle (exec endCall s).
Proof. unfold exec. rewrite endCall_run. cbn. repeat split. Qed.

Lemma endCall_on_idle (s : State) : idle s -> exec endCall s = s.
Proof.
  unfold exec, idle. rewrite endCall_run. unfold released, add_effects.
  open_state s. intros (-> & -> & -> & -> & -> & -> & -> & ->).
  cbn. now rewrite app_nil_r.
Qed.

(** ** Teardown *)

(** C3, as stated, fails: after [endCall] in a reachable state the pending
    offer and the buffered candidates are still there. *)
Lemma endCall_clears_all_counterexample :
  ~ (forall s, reachable s ->
       pendingOffer (exec endCall s) = None /\
       pendingRemoteCandidates (exec endCall s) = []).
Proof.
  intros H.
  assert (R : reachable calling_with_offer)
    by (unfold calling_with_offer, calling, joined; repeat apply reachable_run;
        apply reachable_init).
  destruct (H _ R) as [H1 _]. vm_compute in H1. discriminate.
Qed.

(** C3 (amended): from any state [endCall] returns normally, stops the tracks
    of the local stream, closes the engine, drops both, resets [isCaller] and
    [currentPeer], hides the call overlay; the pending offer is kept. *)
Theorem endCall_teardown (s : State) :
  let s' := exec endCall s in
  outcome endCall s = Ret tt /\
  effects (platform s') = effects (platform s) ++ released s /\
  peerConnection s' = None /\ localStream s' = None /\ remoteStream s' = None /\
  isCaller s' = false /\ currentPeer s' = Null /\
  callOverlayHidden (dom s') = true /\
  localVideoSrc (dom s') = None /\ remoteVideoSrc (dom s') = None /\
  pendingOffer s' = pendingOffer s.
Proof.
  unfold exec, outcome. rewrite endCall_run. cbn. repeat split.
Qed.

(** ** Inbound offers *)

(** C4, as stated, fails: an offer that arrives while a session is active is
    stored as the pending offer. *)
Lemma offer_ignored_when_busy_counterexample :
  ~ (forall s from_user to_user call_type sdp,
       reachable s -> peerConnection s <> None ->
       pendingOffer (exec (handleMessage (CallOffer from_user to_user call_type sdp)) s)
       = pendingOffer s).
Proof.
  intros H.
  assert (R : reachable calling)
    by (unfold calling, joined; repeat apply reachable_run; apply reachable_init).
  specialize (H calling (Str "carol") (Str "alice") (Str "audio") (RemoteSdp 3) R).
  vm_compute in H. assert (F : Some 1 <> None) by discriminate.
  specialize (H F). discriminate.
Qed.

(** C4 (amended): an inbound [call_offer] addressed to the local participant
    is stored as the pending offer, replacing any earlier one, and the modal
    is shown, whether or not a session is active; any other offer changes
    nothing.  Either way nothing is sent and the session fields, the
    candidate queue and the flag are untouched. *)
Theorem call_offer_stored (s : State) (from_user to_user call_type : jsval) (sdp : Sdp) :
  let o := {| offer_from_user := from_user; offer_to_user := to_user;
              offer_call_type := call_type; offer_sdp := sdp |} in
  let s' := exec (handleMessage (CallOffer from_user to_user call_type sdp)) s in
  outcome (handleMessage (CallOffer from_user to_user call_type sdp)) s = Ret tt /\
  s' = (if strict_eq to_user (currentUsername s) then
          set_dom {| callOverlayHidden := callOverlayHidden (dom s);
                     incomingCallModalHidden := false;
                     callInfo := to_text from_user ++ " is calling ("
                                   ++ to_text call_type ++ ")";
                     localVideoSrc := localVideoSrc (dom s);
                     remoteVideoSrc := remoteVideoSrc (dom s);
                     muteBtnText := muteBtnText (dom s) |}
            (set_pendingOffer (Some o) s)
        else s) /\
  session s' = session s /\
  pendingRemoteCandidates s' = pendingRemoteCandidates s /\
  remoteDescriptionSet s' = remoteDescriptionSet s /\
  platform s' = platform s.
Proof.
  unfold exec, outcome, handleMessage, bind, get. cbn.
  destruct (strict_eq to_user (currentUsername s)); cbn; repeat split.
Qed.

(** ** Inbound answers *)

(** C5 fails on the code.  An accepting [call_answer] addressed to somebody
    else, arriving while no session exists, is not ignored: [handleCallAnswer]
    dereferences the null [peerConnection].  A declining one from a stranger
    tears an active session down. *)
Theorem call_answer_not_guarded :
  outcome (handleMessage (CallAnswer (Str "bob") (Str "carol") true (Some (RemoteSdp 1))))
          joined
  = Throw (TypeError "this.peerConnection is null") /\
  peerConnection joined = None /\
  currentPeer calling = Str "bob" /\
  peerConnection calling = Some 1 /\
  session (exec (handleMessage (CallAnswer (Str "carol") (Str "dave") false None)) calling)
  = (None, Null, false, None).
Proof. vm_compute. repeat split. Qed.


(** ** Starting a call *)

Lemma startLocalStream_refused (type : jsval) (why : MediaFailure) (s : State) :
  startLocalStream type (Refused why) s = (Throw (MediaAcquisitionError why), s).
Proof. reflexivity. Qed.

Lemma startLocalStream_granted (type : jsval) (s : State) :
  startLocalStream type Granted s =
  if isCaller s then
    let offer := CallOffer (currentUsername s) (currentPeer s) type (LocalOffer (new_pc s)) in
    let made := [PcCreateOffer (new_pc s);
                 PcSetLocalDescription (new_pc s) (LocalOffer (new_pc s))] in
    if ws s then (Ret tt, add_effects (made ++ [WsSend true offer]) (started type s))
    else (Throw (TypeError "this.ws is null"), add_effects made (started type s))
  else (Ret tt, started type s).
Proof.
  unfold startLocalStream.
  do 4 task_step.
  rewrite bind_run, (forEach_pc PcAddTrack _ _ (new_pc s)) by reflexivity.
  cbv beta iota. task_step.
  cbn [isCaller add_effects set_platform set_peerConnection set_dom set_localStream].
  destruct (isCaller s) eqn:Hc.
  - do 6 task_step. rewrite ws_send_run.
    cbn [ws isCaller add_effects set_platform set_peerConnection set_dom set_localStream].
    rewrite Hc.
    destruct (ws s); unfold started, new_stream, new_pc, add_effects; open_state s;
      rewrite <- ?app_assoc; reflexivity.
  - unfold ret, started, new_stream, new_pc, add_effects. open_state s.
    rewrite <- ?app_assoc. reflexivity.
Qed.


Lemma initiateCall_run (type : string) (media : MediaResult) (s : State) :
  initiateCall type media s =
  match onlineUsers s with
  | None => (Throw (TypeError "this.onlineUsers is undefined"), s)
  | Some us =>
      let peer := find_peer us (currentUsername s) in
      if truthy peer then startLocalStream (Str type) media (dialing peer s)
      else (Ret tt, add_effects [Alert "No one to call."] (set_currentPeer peer s))
  end.
Proof.
  unfold initiateCall, dialing, add_effects.
  open_state s. unfold bind at 1. cbn.
  destruct onlineUsers0 as [us|]; [|reflexivity].
  unfold bind, get, modify. cbn.
  destruct (truthy (find_peer us currentUsername0)); reflexivity.
Qed.

Lemma flushCandidates_run (s : State) (p : nat) :
  peerConnection s = Some p ->
  flushCandidates s
  = (Ret tt, add_effects (map (PcAddIceCandidate p) (pendingRemoteCandidates s)) s).
Proof.
  intros H. unfold flushCandidates. unfold bind at 1. cbn.
  now apply (forEach_pc PcAddIceCandidate).
Qed.

Lemma handleCallAnswer_run (accepted : bool) (sdp : option Sdp) (s : State) :
  handleCallAnswer accepted sdp s =
  if accepted then
    match peerConnection s with
    | Some p =>
        (Ret tt,
         set_pendingRemoteCandidates [] (set_remoteDescriptionSet true
           (add_effects (PcSetRemoteDescription p sdp
                           :: map (PcAddIceCandidate p) (pendingRemoteCandidates s)) s)))
    | None => (Throw (TypeError "this.peerConnection is null"), s)
    end
  else endCall s.
Proof.
  unfold handleCallAnswer. destruct accepted; [|reflexivity]. cbn [negb].
  unfold bind at 1, the_peerConnection, bind, get.
  destruct (peerConnection s) as [p|] eqn:Hp; [|reflexivity].
  cbn -[flushCandidates]. rewrite (flushCandidates_run _ p) by (open_state s; exact Hp).
  open_state s. unfold add_effects. cbn. rewrite <- app_assoc. reflexivity.
Qed.


Lemma answerCall_run (accepted : bool) (media : MediaResult) (s : State) :
  answerCall accepted media s =
  let s0 := set_pendingOffer None (set_dom (set_incomingCallModalHidden true (dom s)) s) in
  match pendingOffer s with
  | None => (Ret tt, s0)
  | Some o =>
      if accepted then
        match media with
        | Refused why => (Throw (MediaAcquisitionError why), accepting o s)
        | Granted =>
            let p := new_pc s in
            let s2 := set_pendingRemoteCandidates [] (set_remoteDescriptionSet true
                        (started (offer_call_type o) (accepting o s))) in
            let calls := flush_calls p (Some (offer_sdp o)) (pendingRemoteCandidates s)
                           ++ answer_calls p in
            let answer := CallAnswer (currentUsername s) (offer_from_user o) true
                            (Some (LocalAnswer p)) in
            if ws s then (Ret tt, add_effects (calls ++ [WsSend false answer]) s2)
            else (Throw (TypeError "this.ws is null"), add_effects calls s2)
        end
      else
        let answer := CallAnswer (currentUsername s) (offer_from_user o) false None in
        if ws s then (Ret tt, add_effects [WsSend (isCaller s) answer] s0)
        else (Throw (TypeError "this.ws is null"), s0)
  end.
Proof.
  open_state s. destruct pendingOffer0 as [o|]; [|reflexivity].
  destruct accepted; [destruct media as [|why]|].
  - unfold answerCall.
    cbv -[app map startLocalStream flushCandidates].
    rewrite startLocalStream_granted.
    cbv -[app map flushCandidates].
    erewrite flushCandidates_run by reflexivity.
    destruct ws0; cbv -[app map]; rewrite <- ?app_assoc; reflexivity.
  - reflexivity.
  - unfold add_effects. destruct ws0; reflexivity.
Qed.


(** ** One task at a time *)

Lemma Forall_role_map {A} (f : A -> Effect) (l : list A) :
  (forall a, role_ok (f a)) -> Forall role_ok (map f l).
Proof. intros H. induction l; cbn; constructor; auto. Qed.

Ltac role_list :=
  repeat first
    [ apply Forall_nil
    | apply Forall_cons; [cbn; auto |]
    | apply Forall_app; split
    | apply Forall_role_map; intros; exact I ].

Ltac fresh_ids :=
  cbn; intros [? ?]; split;
  repeat match goal with
         | |- context [match ?x with _ => _ end] => destruct x
         end; cbn in *; auto with arith; try lia.

Ltac summary :=
  unfold step_summary, add_effects; cbn -[ids_fresh];
  split; [eexists; split;
            [cbn; rewrite <- ?app_assoc;
             first [reflexivity | symmetry; apply app_nil_r]
            | role_list]
         | split; [auto | split; [auto | unfold ids_fresh; fresh_ids]]].

Lemma step_summary_holds (e : Event) (s : State) : step_summary s (exec (step e) s).
Proof.
  unfold exec.
  destruct e as [r u o|c|t m|a m| | |d| |c|st]; cbn [step].
  - unfold joinRoom. open_state s.
    destruct (String.eqb r "" || String.eqb u ""), o; summary.
  - unfold sendMessage. open_state s. destruct (String.eqb c ""), ws0; summary.
  - rewrite initiateCall_run.
    destruct (onlineUsers s) as [us|]; [|open_state s; summary].
    cbv zeta. destruct (truthy (find_peer us (currentUsername s))).
    + destruct m as [|why].
      * rewrite startLocalStream_granted. unfold dialing, started, new_pc, new_stream.
        open_state s. destruct ws0; summary.
      * rewrite startLocalStream_refused. open_state s. summary.
    + open_state s. summary.
  - rewrite answerCall_run. cbv zeta.
    unfold accepting, started, new_pc, new_stream, flush_calls, answer_calls.
    open_state s. destruct pendingOffer0 as [o|]; [|summary].
    destruct a; [destruct m as [|why]|]; destruct ws0; summary.
  - unfold toggleMute. open_state s. destruct localStream0 as [st|]; summary.
  - rewrite endCall_run. unfold released, stops. open_state s.
    destruct localStream0 as [ls|], remoteStream0 as [rs|], peerConnection0 as [p|]; summary.
  - destruct d as [u c|on|on|f t ct sd|f t acc sd|f t c|ty]; cbn [handleMessage].
    + open_state s. summary.
    + open_state s. summary.
    + open_state s. summary.
    + unfold bind, get. destruct (strict_eq t (currentUsername s)); open_state s; summary.
    + rewrite handleCallAnswer_run. destruct acc.
      * unfold flush_calls. open_state s. destruct peerConnection0 as [p|]; summary.
      * rewrite endCall_run. unfold released, stops. open_state s.
        destruct localStream0 as [ls|], remoteStream0 as [rs|], peerConnection0 as [p|];
          summary.
    + unfold bind, get.
      destruct (strict_eq t (currentUsername s)), (peerConnection s) as [p|] eqn:Hp;
        try (open_state s; summary).
      destruct (remoteDescriptionSet s) eqn:Hr; open_state s; subst; summary.
    + open_state s. summary.
  - open_state s. summary.
  - unfold onicecandidate. open_state s. destruct c as [c|]; [destruct ws0|]; summary.
  - open_state s. summary.
Qed.


Lemma run_flag_monotone (es : list Event) (s : State) :
  remoteDescriptionSet s = true -> remoteDescriptionSet (run es s) = true.
Proof.
  revert s. induction es as [|e es IH]; intros s H; [exact H|].
  cbn. apply IH. now apply step_summary_holds.
Qed.

Lemma run_ids_fresh (es : list Event) (s : State) :
  ids_fresh s -> ids_fresh (run es s).
Proof.
  revert s. induction es as [|e es IH]; intros s H; [exact H|].
  cbn. apply IH. now apply step_summary_holds.
Qed.

Lemma reachable_ids_fresh (s : State) : reachable s -> ids_fresh s.
Proof.
  intros [es ->]. apply run_ids_fresh. unfold ids_fresh. cbn. auto.
Qed.

(** [this.remoteStream] is never assigned a stream. *)
Lemma reachable_remoteStream (s : State) : reachable s -> remoteStream s = None.
Proof.
  intros [es ->]. generalize (eq_refl : remoteStream init = None).
  generalize init. induction es as [|e es IH]; intros s H; [exact H|].
  cbn. apply IH. now apply step_summary_holds.
Qed.

Lemma released_NoDup (s : State) : remoteStream s = None -> NoDup (released s).
Proof.
  unfold released, stops, getTracks, getAudioTracks. intros ->.
  destruct (localStream s) as [[i v a]|], (peerConnection s) as [p|]; cbn;
    try destruct v; cbn; repeat constructor; cbn; intuition discriminate.
Qed.

Lemma reachable_joined : reachable joined.
Proof. unfold joined. apply reachable_run, reachable_init. Qed.

Lemma reachable_calling : reachable calling.
Proof. unfold calling. apply reachable_run, reachable_joined. Qed.

Lemma strict_eq_refl (a : jsval) : strict_eq a a = true.
Proof. destruct a; cbn; auto using String.eqb_refl. Qed.

(** ** Idempotence of teardown *)

(** C8: [endCall] never throws and leaves an idle state; a second call in a
    row leaves the state of the first and makes no release call of its own;
    in a reachable state the first call releases no track or engine twice;
    on an idle state [endCall] changes nothing. *)
Theorem endCall_idempotent (s : State) :
  outcome endCall s = Ret tt /\
  exec endCall (exec endCall s) = exec endCall s /\
  idle (exec endCall s) /\
  effects (platform (exec endCall s)) = effects (platform s) ++ released s /\
  effects (platform (exec endCall (exec endCall s))) = effects (platform s) ++ released s /\
  (reachable s -> NoDup (released s)) /\
  (idle s -> exec endCall s = s).
Proof.
  assert (Hidem : exec endCall (exec endCall s) = exec endCall s)
    by (apply endCall_on_idle, endCall_idle).
  assert (Heff : effects (platform (exec endCall s)) = effects (platform s) ++ released s)
    by (unfold exec; rewrite endCall_run; reflexivity).
  repeat split; try apply endCall_idle.
  - unfold outcome. now rewrite endCall_run.
  - exact Hidem.
  - exact Heff.
  - now rewrite Hidem.
  - intros Hr. apply released_NoDup. now apply reachable_remoteStream.
  - apply endCall_on_idle.
Qed.

Lemma endCall_idempotent_witness :
  idle init /\ exec endCall init = init.
Proof.
  assert (H : idle init) by (unfold idle; cbn; repeat split).
  split; [exact H|].
  exact (proj2 (proj2 (proj2 (proj2 (proj2 (proj2 (endCall_idempotent init)))))) H).
Defined.

(** ** Role asymmetry *)

(** C7, as stated, fails: declining an incoming offer while one's own call is
    up sends a [call_answer] with [isCaller] set. *)
Lemma role_asymmetry_counterexample :
  ~ (forall es, Forall role_strict (effects (platform (run es init)))).
Proof.
  intros H. specialize (H declines_while_calling).
  rewrite Forall_forall in H.
  specialize (H (WsSend true (CallAnswer (Str "alice") (Str "carol") false None))).
  cbn in H. assert (F : true = false); [|discriminate F].
  apply H. vm_compute. auto 10.
Qed.

(** The parts of [initiateCall] and [answerCall] before and after the first
    wait make up the whole task. *)
Lemma initiateCall_split (type : string) (media : MediaResult) (s : State) :
  initiateCall type media s
  = (go <- initiateCall_begin type ;;
     if go then startLocalStream (Str type) media else ret tt) s.
Proof.
  unfold initiateCall, initiateCall_begin.
  rewrite !bind_run, get_run. cbv beta iota.
  destruct (onlineUsers s) as [us|]; [|reflexivity].
  rewrite !bind_run, get_run. cbv beta iota.
  rewrite !bind_run, modify_run. cbv beta iota.
  rewrite !bind_run, get_run. cbv beta iota.
  destruct (negb (truthy _)); reflexivity.
Qed.

Lemma answerCall_split (accepted : bool) (media : MediaResult) (s : State) :
  answerCall accepted media s
  = (r <- answerCall_begin accepted ;;
     match r with
     | Some o => answerCall_resume o media
     | None => ret tt
     end) s.
Proof.
  unfold answerCall, answerCall_begin, answerCall_resume.
  rewrite !bind_run, on_dom_run. cbv beta iota.
  rewrite !bind_run, get_run. cbv beta iota.
  rewrite !bind_run, modify_run. cbv beta iota.
  destruct (pendingOffer _) as [o|]; [|reflexivity].
  destruct accepted; cbn [negb].
  - reflexivity.
  - rewrite !bind_run, get_run. cbv beta iota. rewrite !bind_run, ws_send_run.
    destruct (ws _); reflexivity.
Qed.

(** A task started during the wait of another breaks the role discipline:
    with [initiateCall] begun while [answerCall] waits for the media, the
    accepting answer goes out with [isCaller] set. *)
Lemma overlap_breaks_role_discipline :
  ~ Forall role_ok (effects (platform overlapped)).
Proof.
  intros H. rewrite Forall_forall in H.
  specialize (H (WsSend true (CallAnswer (Str "alice") (Str "carol") true
                                (Some (LocalAnswer 1))))).
  cbn in H. assert (F : true = false); [|discriminate F].
  apply H. vm_compute. auto 12.
Qed.

(** C7 (amended): for every state and every task run without another task
    overlapping it, a [call_offer] is only sent with [isCaller] set and an
    accepting [call_answer] only with [isCaller] clear; a declining
    [call_answer] is sent by [answerCall(false)] under whatever role the
    application has. *)
Theorem role_asymmetry (e : Event) (s : State) :
  (exists new,
     effects (platform (exec (step e) s)) = effects (platform s) ++ new /\
     Forall role_ok new) /\
  (forall o m, pendingOffer s = Some o -> ws s = true ->
     effects (platform (exec (answerCall false m) s))
     = effects (platform s)
         ++ [WsSend (isCaller s)
               (CallAnswer (currentUsername s) (offer_from_user o) false None)]).
Proof.
  split.
  - exact (proj1 (step_summary_holds e s)).
  - intros o m Ho Hw. unfold exec. rewrite answerCall_run, Ho, Hw. reflexivity.
Qed.

Lemma role_asymmetry_witness :
  effects (platform (exec (answerCall false Granted) calling_with_offer))
  = effects (platform calling_with_offer)
      ++ [WsSend true (CallAnswer (Str "alice") (Str "carol") false None)].
Proof.
  exact (proj2 (role_asymmetry (UiAnswerCall false Granted) calling_with_offer)
           {| offer_from_user := Str "carol"; offer_to_user := Str "alice";
              offer_call_type := Str "audio"; offer_sdp := RemoteSdp 3 |}
           Granted eq_refl eq_refl).
Defined.

(** ** Inbound candidates *)

Lemma ice_candidate_run (s : State) (from_user to_user : jsval) (c : Candidate) :
  handleMessage (IceCandidate from_user to_user c) s =
  (Ret tt,
   match strict_eq to_user (currentUsername s), peerConnection s with
   | true, Some p =>
       if remoteDescriptionSet s then add_effects [PcAddIceCandidate p c] s
       else set_pendingRemoteCandidates (pendingRemoteCandidates s ++ [c]) s
   | _, _ => s
   end).
Proof.
  cbn [handleMessage]. unfold bind, get.
  destruct (strict_eq to_user (currentUsername s)), (peerConnection s) as [p|];
    try reflexivity.
  destruct (remoteDescriptionSet s); reflexivity.
Qed.

Lemma ice_dropped_without_session (es : list Event) (s : State) :
  forallb is_ice_candidate es = true -> peerConnection s = None ->
  run es s = s /\ Forall (fun e => outcome (step e) s = Ret tt) es.
Proof.
  intros Hes Hpc. induction es as [|e es IH]; [split; [reflexivity|constructor]|].
  cbn in Hes. apply andb_prop in Hes as [He Hes].
  destruct e as [| | | | | |[| | | | |f t c|]| | |]; try discriminate He.
  assert (Hstep : step (WsMessage (IceCandidate f t c)) s = (Ret tt, s)).
  { cbn [step]. rewrite ice_candidate_run, Hpc. now destruct (strict_eq _ _). }
  destruct (IH Hes) as [IH1 IH2]. split.
  - cbn [run fold_left]. unfold exec at 2. rewrite Hstep. exact IH1.
  - constructor; [unfold outcome; now rewrite Hstep | exact IH2].
Qed.

(** C9: an inbound [ice_candidate] reaches the session, applied to the engine
    or buffered, exactly when it is addressed to the local participant and
    [peerConnection] is non-null; otherwise the state is left as it was.  It
    never throws, and any number of them arriving while no session exists
    leave the state unchanged. *)
Theorem ice_candidate_routing (s : State) (from_user to_user : jsval) (c : Candidate) :
  outcome (handleMessage (IceCandidate from_user to_user c)) s = Ret tt /\
  exec (handleMessage (IceCandidate from_user to_user c)) s
  = match strict_eq to_user (currentUsername s), peerConnection s with
    | true, Some p =>
        if remoteDescriptionSet s then add_effects [PcAddIceCandidate p c] s
        else set_pendingRemoteCandidates (pendingRemoteCandidates s ++ [c]) s
    | _, _ => s
    end /\
  (forall es, forallb is_ice_candidate es = true -> peerConnection s = None ->
     run es s = s /\ Forall (fun e => outcome (step e) s = Ret tt) es).
Proof.
  unfold outcome, exec. rewrite ice_candidate_run. repeat split.
  - now apply ice_dropped_without_session.
  - now apply ice_dropped_without_session.
Qed.

Lemma ice_candidate_routing_witness :
  run [ice_from (Str "alice") (Str "bob", 1); ice_from (Str "alice") (Str "bob", 2);
       ice_from (Str "alice") (Str "bob", 3)] joined = joined.
Proof.
  exact (proj1 (proj2 (proj2 (ice_candidate_routing joined Null Null 0))
                  [ice_from (Str "alice") (Str "bob", 1);
                   ice_from (Str "alice") (Str "bob", 2);
                   ice_from (Str "alice") (Str "bob", 3)] eq_refl eq_refl)).
Defined.

(** ** Buffering and flushing *)

Lemma buffer_run (cs : list (jsval * Candidate)) (s : State) (p : nat) (me : jsval) :
  peerConnection s = Some p -> remoteDescriptionSet s = false -> currentUsername s = me ->
  run (map (ice_from me) cs) s
  = set_pendingRemoteCandidates (pendingRemoteCandidates s ++ map snd cs) s.
Proof.
  revert s. induction cs as [|[f c] cs IH]; intros s Hp Hr Hme.
  - cbn. rewrite app_nil_r. now open_state s.
  - cbn [map run fold_left]. unfold exec at 2, ice_from at 2. cbn [step fst snd].
    rewrite ice_candidate_run, Hme, strict_eq_refl, Hp, Hr. cbn [snd].
    change (fold_left (fun s e => exec (step e) s) ?l ?x) with (run l x).
    rewrite (IH (set_pendingRemoteCandidates (pendingRemoteCandidates s ++ [c]) s)
               Hp Hr Hme).
    open_state s. now rewrite <- app_assoc.
Qed.


Lemma ice_applied_app (p : nat) (l1 l2 : list Effect) :
  ice_applied p (l1 ++ l2) = ice_applied p l1 ++ ice_applied p l2.
Proof. apply flat_map_app. Qed.

Lemma ice_applied_flush (p : nat) (d : option Sdp) (q : list Candidate) :
  ice_applied p (flush_calls p d q) = q.
Proof.
  unfold flush_calls. cbn. induction q as [|c q IH]; [reflexivity|].
  cbn. rewrite Nat.eqb_refl. cbn. now f_equal.
Qed.

Lemma ice_applied_tracks (p q : nat) (l : list Track) :
  ice_applied p (map (PcAddTrack q) l) = [].
Proof. induction l; cbn; auto. Qed.

Lemma answerCall_flush (s : State) (o : Offer) :
  pendingOffer s = Some o ->
  let s' := exec (answerCall true Granted) s in
  peerConnection s' = Some (new_pc s) /\
  (exists pre post,
     effects (platform s')
     = effects (platform s) ++ pre
         ++ flush_calls (new_pc s) (Some (offer_sdp o)) (pendingRemoteCandidates s) ++ post /\
     ice_applied (new_pc s) pre = [] /\ ice_applied (new_pc s) post = []) /\
  pendingRemoteCandidates s' = [] /\
  remoteDescriptionSet s' = true.
Proof.
  intros Ho. unfold exec. rewrite answerCall_run, Ho. cbv zeta.
  destruct (ws s); cbn [snd]; (split; [reflexivity|]); (split; [|split; reflexivity]).
  - exists (PcNew (new_pc s)
              :: map (PcAddTrack (new_pc s)) (getTracks (new_stream (offer_call_type o) s))).
    eexists. split; [|split].
    + unfold add_effects, started, accepting.
      cbn -[flush_calls answer_calls getTracks new_pc new_stream].
      rewrite <- !app_assoc. reflexivity.
    + cbn -[getTracks]. apply ice_applied_tracks.
    + reflexivity.
  - exists (PcNew (new_pc s)
              :: map (PcAddTrack (new_pc s)) (getTracks (new_stream (offer_call_type o) s))).
    eexists. split; [|split].
    + unfold add_effects, started, accepting.
      cbn -[flush_calls answer_calls getTracks new_pc new_stream].
      rewrite <- !app_assoc. reflexivity.
    + cbn -[getTracks]. apply ice_applied_tracks.
    + reflexivity.
Qed.

(** C2: candidates that arrive while [remoteDescriptionSet] is false are
    appended to the queue and nothing is handed to the engine; the flush
    that follows the remote description, in [handleCallAnswer] as in
    [answerCall], hands the engine the queued candidates once each, in
    arrival order, right after the description, and leaves the queue empty. *)
Theorem buffered_candidates_flushed
    (s : State) (p : nat) (me : jsval) (cs : list (jsval * Candidate)) :
  peerConnection s = Some p -> remoteDescriptionSet s = false -> currentUsername s = me ->
  let buffered := run (map (ice_from me) cs) s in
  let q := pendingRemoteCandidates s ++ map snd cs in
  pendingRemoteCandidates buffered = q /\
  platform buffered = platform s /\
  (forall from_user to_user sdp,
     let answer := handleMessage (CallAnswer from_user to_user true sdp) in
     outcome answer buffered = Ret tt /\
     effects (platform (exec answer buffered))
     = effects (platform s) ++ flush_calls p sdp q /\
     ice_applied p (effects (platform (exec answer buffered)))
     = ice_applied p (effects (platform s)) ++ q /\
     pendingRemoteCandidates (exec answer buffered) = [] /\
     remoteDescriptionSet (exec answer buffered) = true) /\
  (forall o, pendingOffer s = Some o ->
     let s' := exec (answerCall true Granted) buffered in
     peerConnection s' = Some (new_pc s) /\
     (exists pre post,
        effects (platform s')
        = effects (platform s) ++ pre
            ++ flush_calls (new_pc s) (Some (offer_sdp o)) q ++ post /\
        ice_applied (new_pc s) pre = [] /\ ice_applied (new_pc s) post = []) /\
     pendingRemoteCandidates s' = [] /\
     remoteDescriptionSet s' = true).
Proof.
  intros Hp Hr Hme buffered q. subst buffered q.
  rewrite (buffer_run cs s p me Hp Hr Hme).
  split; [reflexivity|]. split; [reflexivity|]. split.
  - intros f t sdp answer. subst answer. unfold outcome, exec.
    cbn [handleMessage]. rewrite handleCallAnswer_run.
    cbn [peerConnection set_pendingRemoteCandidates]. rewrite Hp.
    cbn -[ice_applied flush_calls]. repeat split.
    rewrite ice_applied_app. f_equal. apply ice_applied_flush.
  - intros o Ho.
    exact (answerCall_flush
             (set_pendingRemoteCandidates (pendingRemoteCandidates s ++ map snd cs) s) o Ho).
Qed.


Lemma buffered_candidates_flushed_witness :
  let buffered :=
    run (map (ice_from (Str "alice")) [(Str "bob", 8); (Str "bob", 9)]) calling_with_offer in
  pendingRemoteCandidates buffered = [7; 8; 9] /\
  ice_applied 1
    (effects (platform
       (exec (handleMessage (CallAnswer (Str "bob") (Str "alice") true (Some (RemoteSdp 1))))
             buffered))) = [7; 8; 9] /\
  pendingRemoteCandidates (exec (answerCall true Granted) buffered) = [].
Proof.
  destruct (buffered_candidates_flushed calling_with_offer 1 (Str "alice")
              [(Str "bob", 8); (Str "bob", 9)] eq_refl eq_refl eq_refl)
    as (H1 & _ & H3 & H4).
  split; [exact H1|]. split.
  - destruct (H3 (Str "bob") (Str "alice") (Some (RemoteSdp 1))) as (_ & _ & H & _).
    exact H.
  - destruct (H4 _ eq_refl) as (_ & _ & H & _). exact H.
Defined.

(** ** The remote-description flag *)

(** C10: [remoteDescriptionSet] starts false, is set by both paths that
    apply a remote description, and no task ever clears it, [endCall]
    included.  Hence, once it has been set, in whatever session is active
    later an inbound candidate addressed to the local participant goes
    straight to the current engine and the queue is left alone. *)
Theorem remoteDescriptionSet_never_reset :
  remoteDescriptionSet init = false /\
  (forall s p from_user to_user sdp,
     peerConnection s = Some p ->
     remoteDescriptionSet
       (exec (handleMessage (CallAnswer from_user to_user true sdp)) s) = true) /\
  (forall s o, pendingOffer s = Some o ->
     remoteDescriptionSet (exec (answerCall true Granted) s) = true) /\
  (forall s e, remoteDescriptionSet s = true ->
     remoteDescriptionSet (exec (step e) s) = true) /\
  (forall s, remoteDescriptionSet s = true ->
     remoteDescriptionSet (exec endCall s) = true) /\
  (forall s es p from_user to_user c,
     remoteDescriptionSet s = true ->
     peerConnection (run es s) = Some p ->
     strict_eq to_user (currentUsername (run es s)) = true ->
     let s' := exec (handleMessage (IceCandidate from_user to_user c)) (run es s) in
     s' = add_effects [PcAddIceCandidate p c] (run es s) /\
     pendingRemoteCandidates s' = pendingRemoteCandidates (run es s)).
Proof.
  split; [reflexivity|]. split; [|split; [|split; [|split]]].
  - intros s p f t sdp Hp. unfold exec. cbn [handleMessage].
    rewrite handleCallAnswer_run, Hp. reflexivity.
  - intros s o Ho. now apply answerCall_flush with (o := o).
  - intros s e H. now apply step_summary_holds.
  - intros s H. now apply (step_summary_holds UiEndCall).
  - intros s es p f t c H Hp Ht. cbv zeta. unfold exec.
    rewrite ice_candidate_run, Ht, Hp, (run_flag_monotone es s H). split; reflexivity.
Qed.

Lemma remoteDescriptionSet_never_reset_witness :
  remoteDescriptionSet answered = true /\
  exec (handleMessage (IceCandidate (Str "bob") (Str "alice") 5)) second_call
  = add_effects [PcAddIceCandidate 3 5] second_call.
Proof.
  assert (H1 : remoteDescriptionSet answered = true)
    by exact (proj1 (proj2 remoteDescriptionSet_never_reset)
                calling 1 (Str "bob") (Str "alice") (Some (RemoteSdp 1)) eq_refl).
  split; [exact H1|].
  exact (proj1 (proj2 (proj2 (proj2 (proj2 (proj2 remoteDescriptionSet_never_reset))))
                  answered [UiEndCall; UiInitiateCall "audio" Granted]
                  3 (Str "bob") (Str "alice") 5 H1 eq_refl eq_refl)).
Defined.


(** ** A second call while one is active *)

(** C1, as stated, fails: with a session active, [initiateCall] goes ahead and
    the session fields are overwritten. *)
Lemma single_session_counterexample :
  ~ (forall s t m, reachable s -> peerConnection s <> None ->
       session (exec (initiateCall t m) s) = session s).
Proof.
  intros H.
  specialize (H calling "audio" Granted reachable_calling).
  vm_compute in H. assert (F : Some 1 <> None) by discriminate.
  specialize (H F). discriminate.
Qed.

(** C1 (amended): the application holds one [peerConnection] at a time, but a
    second call is not refused.  With a session active and media granted,
    [initiateCall] (when the roster names another participant) and
    [answerCall(true)] (when an offer is pending) put a newly created engine
    and a newly created stream in place of the current ones and set
    [currentPeer] and [isCaller] for the new call.  The session survives only
    where the attempt stops early: [initiateCall] with nobody to call leaves
    [peerConnection], [localStream] and [isCaller] alone and overwrites
    [currentPeer]; [answerCall(true)] without a pending offer leaves all four
    alone. *)
Theorem second_call_replaces_session (s : State) (p : nat) :
  reachable s -> peerConnection s = Some p ->
  (forall t us, onlineUsers s = Some us ->
     let peer := find_peer us (currentUsername s) in
     let s' := exec (initiateCall t Granted) s in
     if truthy peer then
       peerConnection s' = Some (new_pc s) /\ new_pc s <> p /\
       localStream s' = Some (new_stream (Str t) s) /\ localStream s' <> localStream s /\
       isCaller s' = true /\ currentPeer s' = peer
     else
       outcome (initiateCall t Granted) s = Ret tt /\
       peerConnection s' = Some p /\ localStream s' = localStream s /\
       isCaller s' = isCaller s /\ currentPeer s' = peer) /\
  (let s' := exec (answerCall true Granted) s in
   match pendingOffer s with
   | Some o =>
       peerConnection s' = Some (new_pc s) /\ new_pc s <> p /\
       localStream s' = Some (new_stream (offer_call_type o) s) /\
       localStream s' <> localStream s /\
       isCaller s' = false /\ currentPeer s' = offer_from_user o
   | None =>
       outcome (answerCall true Granted) s = Ret tt /\ session s' = session s
   end).
Proof.
  intros Hr Hp.
  destruct (reachable_ids_fresh s Hr) as [Hpc Hls]. rewrite Hp in Hpc.
  assert (Hnew : new_pc s <> p) by (unfold new_pc; lia).
  assert (Hst : forall ty, Some (new_stream ty s) <> localStream s).
  { intros ty E. rewrite <- E in Hls. cbn in Hls. lia. }
  split.
  - intros t us Hus peer s'. subst peer s'. unfold exec, outcome.
    rewrite initiateCall_run, Hus. cbv zeta.
    destruct (truthy (find_peer us (currentUsername s))).
    + rewrite startLocalStream_granted. cbn [isCaller dialing set_dom set_isCaller].
      destruct (ws (dialing (find_peer us (currentUsername s)) s));
        cbn [snd]; repeat split; auto; apply Hst.
    + cbn. rewrite Hp. repeat split.
  - cbv zeta. unfold exec, outcome. rewrite answerCall_run. cbv zeta.
    destruct (pendingOffer s) as [o|]; [|split; reflexivity].
    destruct (ws s); cbn [snd]; repeat split; auto; apply Hst.
Qed.

Lemma second_call_replaces_session_witness :
  peerConnection calling = Some 1 /\
  peerConnection (exec (initiateCall "audio" Granted) calling) = Some 3 /\
  session (exec (answerCall true Granted) calling) = session calling.
Proof.
  destruct (second_call_replaces_session calling 1 reachable_calling eq_refl) as [H1 H2].
  split; [reflexivity|]. split.
  - exact (proj1 (H1 "audio" ["alice"; "bob"; "carol"] eq_refl)).
  - exact (proj2 H2).
Defined.

(** ** Media acquisition failure *)

(** C6, as stated, fails: a refused [getUserMedia] in [initiateCall] leaves
    an idle application with role and peer still set. *)
Lemma media_failure_idle_counterexample :
  ~ (forall s t why, reachable s -> idle s ->
       idle (exec (initiateCall t (Refused why)) s)).
Proof.
  intros H.
  assert (I : idle joined) by (unfold idle; cbn; repeat split).
  destruct (H joined "video" NotAllowed reachable_joined I) as (_ & _ & _ & F & _).
  vm_compute in F. discriminate.
Qed.

(** C6 (amended): when [getUserMedia] is refused during [initiateCall] or
    [answerCall(true)], the attempt fails with the media error before any
    engine or stream is created and before anything is sent:
    [peerConnection], [localStream] and the platform log are as before.  The
    fields written ahead of the acquisition keep their new values:
    [currentPeer], [isCaller] (true for initiate, false for accept), the call
    overlay stays shown, and on accept the pending offer is gone. *)
Theorem media_failure_aborts (s : State) (why : MediaFailure) :
  (forall t us, onlineUsers s = Some us ->
     truthy (find_peer us (currentUsername s)) = true ->
     let s' := exec (initiateCall t (Refused why)) s in
     outcome (initiateCall t (Refused why)) s = Throw (MediaAcquisitionError why) /\
     s' = dialing (find_peer us (currentUsername s)) s /\
     peerConnection s' = peerConnection s /\ localStream s' = localStream s /\
     platform s' = platform s /\
     isCaller s' = true /\ currentPeer s' = find_peer us (currentUsername s) /\
     callOverlayHidden (dom s') = false) /\
  (forall o, pendingOffer s = Some o ->
     let s' := exec (answerCall true (Refused why)) s in
     outcome (answerCall true (Refused why)) s = Throw (MediaAcquisitionError why) /\
     s' = accepting o s /\
     peerConnection s' = peerConnection s /\ localStream s' = localStream s /\
     platform s' = platform s /\
     isCaller s' = false /\ currentPeer s' = offer_from_user o /\
     callOverlayHidden (dom s') = false /\ pendingOffer s' = None).
Proof.
  split.
  - intros t us Hus Hpeer. cbv zeta. unfold exec, outcome.
    rewrite initiateCall_run, Hus. cbv zeta. rewrite Hpeer, startLocalStream_refused.
    cbn. repeat split.
  - intros o Ho. cbv zeta. unfold exec, outcome. rewrite answerCall_run, Ho.
    cbn. repeat split.
Qed.

Lemma media_failure_aborts_witness :
  outcome (initiateCall "video" (Refused NotAllowed)) joined
  = Throw (MediaAcquisitionError NotAllowed) /\
  isCaller (exec (initiateCall "video" (Refused NotAllowed)) joined) = true /\
  outcome (answerCall true (Refused NotAllowed)) calling_with_offer
  = Throw (MediaAcquisitionError NotAllowed).
Proof.
  split; [|split].
  - exact (proj1 (proj1 (media_failure_aborts joined NotAllowed)
                    "video" ["alice"; "bob"; "carol"] eq_refl eq_refl)).
  - destruct (proj1 (media_failure_aborts joined NotAllowed)
                "video" ["alice"; "bob"; "carol"] eq_refl eq_refl)
      as (_ & _ & _ & _ & _ & H & _).
    exact H.
  - exact (proj1 (proj2 (media_failure_aborts calling_with_offer NotAllowed) _ eq_refl)).
Defined.

(** * Further properties of the code *)

(** ** Choosing the peer *)

Lemma strict_eq_true (a b : jsval) : strict_eq a b = true <-> a = b.
Proof.
  split; [|intros ->; apply strict_eq_refl].
  destruct a, b; cbn; try discriminate; auto.
  intros H. apply String.eqb_eq in H. now subst.
Qed.

Lemma find_peer_cases (us : list string) (me : jsval) :
  (find_peer us me = Undefined /\ forall u, In u us -> Str u = me) \/
  (exists before u after,
     us = before ++ u :: after /\ (forall v, In v before -> Str v = me) /\
     Str u <> me /\ find_peer us me = Str u).
Proof.
  unfold find_peer. induction us as [|x us IH]; cbn [find].
  - left. split; [reflexivity | intros ? []].
  - destruct (strict_eq (Str x) me) eqn:E; cbn [negb].
    + apply strict_eq_true in E.
      destruct IH as [[H1 H2]|(before & u & after & -> & Hb & Hu & Hf)].
      * left. split; [exact H1|]. intros u [<-|Hu]; auto.
      * right. exists (x :: before), u, after. repeat split; auto.
        intros v [<-|Hv]; auto.
    + right. exists [], x, us. repeat split; auto.
      * intros ? [].
      * intros H. apply strict_eq_true in H. congruence.
Qed.

Lemma first_other_unique (me : jsval) (before after b' a' : list string) (u : string) :
  before ++ u :: after = b' ++ "" :: a' ->
  (forall v, In v before -> Str v = me) -> Str u <> me -> me <> Str "" ->
  (forall v, In v b' -> Str v = me) -> u = "".
Proof.
  revert b'. induction before as [|x before IH]; intros [|y b'] E Hb Hne Hme Hb'; cbn in E.
  - congruence.
  - injection E as -> _. exfalso. apply Hne, Hb'. now left.
  - injection E as -> _. exfalso. apply Hme. symmetry. apply Hb. now left.
  - injection E as _ E. apply (IH b' E); auto.
    + intros v Hv. apply Hb. now right.
    + intros v Hv. apply Hb'. now right.
Qed.

(** X1: [initiateCall] always leaves in [currentPeer] the result of the
    roster lookup, and a name found there is the first roster entry that
    differs from the local user name: it is in the roster, it is not the
    local user, and every entry ahead of it is the local user. *)
Theorem initiateCall_peer_choice
    (s : State) (us : list string) (t : string) (m : MediaResult) :
  onlineUsers s = Some us ->
  currentPeer (exec (initiateCall t m) s) = find_peer us (currentUsername s) /\
  (forall u, find_peer us (currentUsername s) = Str u ->
     Str u <> currentUsername s /\
     exists before after,
       us = before ++ u :: after /\
       forall v, In v before -> Str v = currentUsername s).
Proof.
  intros Hus. split.
  - unfold exec. rewrite initiateCall_run, Hus. cbv zeta.
    destruct (truthy (find_peer us (currentUsername s))); [|reflexivity].
    destruct m as [|why].
    + rewrite startLocalStream_granted. cbn [isCaller dialing set_dom set_isCaller].
      destruct (ws _); reflexivity.
    + reflexivity.
  - intros u Hu.
    destruct (find_peer_cases us (currentUsername s))
      as [[H _]|(before & u' & after & Hsplit & Hb & Hne & Hf)]; [congruence|].
    rewrite Hf in Hu. injection Hu as ->. split; [exact Hne|]. now exists before, after.
Qed.

Lemma initiateCall_peer_choice_witness :
  currentPeer (exec (initiateCall "audio" Granted) joined) = Str "bob".
Proof.
  exact (proj1 (initiateCall_peer_choice joined ["alice"; "bob"; "carol"] "audio" Granted
                  eq_refl)).
Defined.

(** X2: when every roster entry is the local user, or the first entry that
    is not has the empty name, [initiateCall] only alerts: it returns
    normally, creates no engine or stream, sends nothing and leaves
    [isCaller] alone, even if callable participants follow the empty name. *)
Theorem initiateCall_nobody_to_call
    (s : State) (us : list string) (t : string) (m : MediaResult) :
  onlineUsers s = Some us ->
  ((forall u, In u us -> Str u = currentUsername s) \/
   (exists before after,
      us = before ++ "" :: after /\ currentUsername s <> Str "" /\
      forall v, In v before -> Str v = currentUsername s)) ->
  outcome (initiateCall t m) s = Ret tt /\
  exec (initiateCall t m) s
  = add_effects [Alert "No one to call."]
      (set_currentPeer (find_peer us (currentUsername s)) s).
Proof.
  intros Hus Hcase.
  assert (Hf : truthy (find_peer us (currentUsername s)) = false).
  { destruct (find_peer_cases us (currentUsername s))
      as [[H _]|(before & u & after & Hsplit & Hb & Hne & Hf)]; [now rewrite H|].
    rewrite Hf. destruct Hcase as [Hall|(b' & a' & Hsplit' & Hme & Hb')].
    - exfalso. apply Hne, Hall. rewrite Hsplit. apply in_elt.
    - rewrite Hsplit in Hsplit'.
      now rewrite (first_other_unique _ _ _ _ _ _ Hsplit' Hb Hne Hme Hb'). }
  unfold outcome, exec. rewrite initiateCall_run, Hus. cbv zeta. rewrite Hf. split; reflexivity.
Qed.

Lemma initiateCall_nobody_to_call_witness :
  exec (initiateCall "video" Granted)
       (exec (handleMessage (Join ["alice"; ""; "bob"])) joined)
  = add_effects [Alert "No one to call."]
      (set_currentPeer (Str "")
         (exec (handleMessage (Join ["alice"; ""; "bob"])) joined)).
Proof.
  refine (proj2 (initiateCall_nobody_to_call
                   (exec (handleMessage (Join ["alice"; ""; "bob"])) joined)
                   ["alice"; ""; "bob"] "video" Granted eq_refl _)).
  right. exists ["alice"], ["bob"]. split; [reflexivity|]. split; [discriminate|].
  intros v [<-|[]]. reflexivity.
Defined.

(** ** Mute *)

Lemma toggleMute_run (s : State) :
  toggleMute s =
  (Ret tt,
   match localStream s with
   | Some st =>
       set_dom (set_muteBtnText (Some (muteCaption (negb (audio_enabled st)))) (dom s))
         (set_localStream
            (Some {| stream_id := stream_id st; stream_video := stream_video st;
                     audio_enabled := negb (audio_enabled st) |}) s)
   | None => s
   end).
Proof.
  unfold toggleMute. rewrite bind_run, get_run. cbv beta iota.
  destruct (localStream s); reflexivity.
Qed.

(** X3: [toggleMute] never throws.  With a local stream it flips the
    enabled flag of the audio track and writes the caption for the new flag
    on the mute button; the tracks, the engine, the log and the rest of the
    DOM are as before.  Without a local stream it changes nothing.  Two
    calls in a row give the first state back except for the caption, which
    is then the one for the original flag; a third call gives the state of
    the first. *)
Theorem toggleMute_twice (s : State) :
  outcome toggleMute s = Ret tt /\
  option_map audio_enabled (localStream (exec toggleMute s))
  = option_map negb (option_map audio_enabled (localStream s)) /\
  option_map getTracks (localStream (exec toggleMute s))
  = option_map getTracks (localStream s) /\
  muteBtnText (dom (exec toggleMute s))
  = match localStream s with
    | Some st => Some (muteCaption (negb (audio_enabled st)))
    | None => muteBtnText (dom s)
    end /\
  set_muteBtnText (muteBtnText (dom s)) (dom (exec toggleMute s)) = dom s /\
  peerConnection (exec toggleMute s) = peerConnection s /\
  platform (exec toggleMute s) = platform s /\
  match localStream s with
  | Some st =>
      exec toggleMute (exec toggleMute s)
      = set_dom (set_muteBtnText (Some (muteCaption (audio_enabled st))) (dom s)) s
  | None => exec toggleMute s = s
  end /\
  exec toggleMute (exec toggleMute (exec toggleMute s)) = exec toggleMute s.
Proof.
  unfold outcome, exec. rewrite !toggleMute_run. cbn [fst snd].
  destruct (localStream s) as [[i v a]|] eqn:H.
  - cbn. rewrite !negb_involutive. repeat split; open_state s; now subst.
  - rewrite !H. repeat split; try (now rewrite H). open_state s. reflexivity.
Qed.

(** ** Deciding on an incoming call *)

Lemma answerCall_settled (a : bool) (m : MediaResult) (s : State) :
  pendingOffer (exec (answerCall a m) s) = None /\
  incomingCallModalHidden (dom (exec (answerCall a m) s)) = true.
Proof.
  unfold exec. rewrite answerCall_run. cbv zeta.
  destruct (pendingOffer s) as [o|]; [|split; reflexivity].
  destruct a; [destruct m|]; destruct (ws s); split; reflexivity.
Qed.

Lemma answerCall_nothing_pending (a : bool) (m : MediaResult) (s : State) :
  pendingOffer s = None -> incomingCallModalHidden (dom s) = true ->
  answerCall a m s = (Ret tt, s).
Proof.
  intros H1 H2. rewrite answerCall_run, H1. cbv zeta.
  open_state s. now subst.
Qed.

(** X4: a decision on an incoming call is taken once.  Whatever the first
    [answerCall] did (accept, decline, or fail on the way), a further
    [answerCall] right after it returns normally and changes nothing: no
    second engine, no second answer. *)
Theorem answerCall_once (s : State) (a a' : bool) (m m' : MediaResult) :
  outcome (answerCall a' m') (exec (answerCall a m) s) = Ret tt /\
  exec (answerCall a' m') (exec (answerCall a m) s) = exec (answerCall a m) s.
Proof.
  destruct (answerCall_settled a m s) as [H1 H2].
  set (s1 := exec (answerCall a m) s) in *.
  unfold outcome, exec.
  rewrite (answerCall_nothing_pending a' m' s1 H1 H2). split; reflexivity.
Qed.

Lemma call_offer_run (s : State) (f t c : jsval) (d : Sdp) :
  handleMessage (CallOffer f t c d) s =
  (Ret tt,
   if strict_eq t (currentUsername s) then
     set_dom (set_incomingCallModalHidden false
                (set_callInfo (to_text f ++ " is calling (" ++ to_text c ++ ")") (dom s)))
       (set_pendingOffer
          (Some {| offer_from_user := f; offer_to_user := t;
                   offer_call_type := c; offer_sdp := d |}) s)
   else s).
Proof.
  cbn [handleMessage]. rewrite bind_run, get_run. cbv beta iota.
  destruct (strict_eq t (currentUsername s)); reflexivity.
Qed.

(** X5: of two offers addressed to the local user, only the later one
    counts.  The state after both is the state after the second alone, and
    declining then sends a single [call_answer], to the second caller; the
    first caller is never answered. *)
Theorem latest_offer_wins
    (s : State) (f1 t1 c1 f2 c2 : jsval) (d1 d2 : Sdp) (m : MediaResult) :
  ws s = true ->
  let first := handleMessage (CallOffer f1 t1 c1 d1) in
  let second := handleMessage (CallOffer f2 (currentUsername s) c2 d2) in
  exec second (exec first s) = exec second s /\
  pendingOffer (exec second s)
  = Some {| offer_from_user := f2; offer_to_user := currentUsername s;
            offer_call_type := c2; offer_sdp := d2 |} /\
  sent (effects (platform (exec (answerCall false m) (exec second (exec first s)))))
  = sent (effects (platform s)) ++ [CallAnswer (currentUsername s) f2 false None].
Proof.
  intros Hw first second. subst first second.
  assert (E : exec (handleMessage (CallOffer f2 (currentUsername s) c2 d2))
                (exec (handleMessage (CallOffer f1 t1 c1 d1)) s)
              = exec (handleMessage (CallOffer f2 (currentUsername s) c2 d2)) s).
  { unfold exec. rewrite !call_offer_run. cbn [snd].
    destruct (strict_eq t1 (currentUsername s)); cbn [currentUsername set_dom set_pendingOffer];
      rewrite !strict_eq_refl; reflexivity. }
  split; [exact E|]. rewrite E. unfold exec.
  rewrite call_offer_run, strict_eq_refl. cbn [snd]. split; [reflexivity|].
  rewrite answerCall_run. cbn. rewrite Hw. cbn.
  induction (effects (platform s)) as [|[] l IH]; cbn; congruence.
Qed.

Lemma latest_offer_wins_witness :
  sent (effects (platform
    (exec (answerCall false Granted)
       (exec (handleMessage (CallOffer (Str "carol") (Str "alice") (Str "audio") (RemoteSdp 3)))
          (exec (handleMessage (CallOffer (Str "bob") (Str "alice") (Str "video") (RemoteSdp 2)))
             joined)))))
  = [CallAnswer (Str "alice") (Str "carol") false None].
Proof.
  exact (proj2 (proj2 (latest_offer_wins joined (Str "bob") (Str "alice") (Str "video")
                         (Str "carol") (Str "audio") (RemoteSdp 2) (RemoteSdp 3) Granted
                         eq_refl))).
Defined.

(** ** Chat and presence beside a call *)

(** X6: chat, presence and connection tasks (joining, sending or receiving
    chat text, roster snapshots, messages of unknown type, socket close,
    remote tracks, locally gathered candidates) never touch the call: the
    session fields, the pending offer, the candidate queue and the flag are
    as before, and no engine is created or closed. *)
Theorem chat_leaves_call_alone (e : Event) (s : State) :
  is_chat_event e = true ->
  call_state (exec (step e) s) = call_state s /\
  closes (effects (platform (exec (step e) s))) = closes (effects (platform s)) /\
  nextId (platform (exec (step e) s)) = nextId (platform s).
Proof.
  assert (Hc : forall l x, closes x = [] -> closes (l ++ x) = closes l).
  { intros l x Hx. induction l as [|[] l IH]; cbn; rewrite ?IH, ?Hx; reflexivity. }
  intros He. unfold exec.
  destruct e as [r u o|c|t m|a m| | |d| |c|st]; try discriminate He; cbn [step].
  - unfold joinRoom. destruct (String.eqb r "" || String.eqb u ""); [|destruct o];
      cbn; repeat split; auto.
  - unfold sendMessage. destruct (String.eqb c ""); [repeat split|].
    rewrite ws_send_run. destruct (ws s); cbn; repeat split; auto.
  - destruct d; try discriminate He; cbn; repeat split; auto.
  - cbn; repeat split; auto.
  - destruct c as [c|]; [|repeat split]. unfold onicecandidate.
    do 2 task_step. rewrite ws_send_run. destruct (ws s); cbn; repeat split; auto.
  - repeat split.
Qed.

Lemma chat_leaves_call_alone_witness :
  call_state (exec (step (WsMessage (Leave ["alice"]))) calling) = call_state calling.
Proof.
  exact (proj1 (chat_leaves_call_alone (WsMessage (Leave ["alice"])) calling eq_refl)).
Defined.

(** ** Candidates that come too early *)

(** X7: candidates that reach a callee before it has accepted (no engine
    yet) are lost for good: accepting afterwards gives exactly the state of
    accepting without them, so the new engine never sees them. *)
Theorem early_candidates_lost
    (s : State) (me : jsval) (cs : list (jsval * Candidate)) (a : bool) (m : MediaResult) :
  peerConnection s = None ->
  exec (answerCall a m) (run (map (ice_from me) cs) s) = exec (answerCall a m) s /\
  outcome (answerCall a m) (run (map (ice_from me) cs) s) = outcome (answerCall a m) s.
Proof.
  intros H.
  assert (E : run (map (ice_from me) cs) s = s).
  { apply ice_dropped_without_session; [|exact H].
    induction cs as [|[f c] cs IH]; [reflexivity | exact IH]. }
  now rewrite E.
Qed.

Lemma early_candidates_lost_witness :
  exec (answerCall true Granted)
    (run (map (ice_from (Str "alice")) [(Str "bob", 1); (Str "bob", 2)])
       (exec (handleMessage (CallOffer (Str "bob") (Str "alice") (Str "audio") (RemoteSdp 2)))
          joined))
  = exec (answerCall true Granted)
      (exec (handleMessage (CallOffer (Str "bob") (Str "alice") (Str "audio") (RemoteSdp 2)))
         joined).
Proof.
  exact (proj1 (early_candidates_lost
                  (exec (handleMessage
                           (CallOffer (Str "bob") (Str "alice") (Str "audio") (RemoteSdp 2)))
                        joined)
                  (Str "alice") [(Str "bob", 1); (Str "bob", 2)] true Granted eq_refl)).
Defined.

(** ** Two clients *)

Lemma sent_app (l1 l2 : list Effect) : sent (l1 ++ l2) = sent l1 ++ sent l2.
Proof. induction l1 as [|[] l1 IH]; cbn; rewrite ?IH; reflexivity. Qed.

Lemma sent_map_none {A} (f : A -> Effect) (l : list A) :
  (forall a, sent [f a] = []) -> sent (map f l) = [].
Proof.
  intros H. induction l as [|a l IH]; [reflexivity|].
  change (map f (a :: l)) with ([f a] ++ map f l). now rewrite sent_app, H, IH.
Qed.

Lemma sent_flush (p : nat) (d : option Sdp) (q : list Candidate) :
  sent (flush_calls p d q) = [].
Proof. unfold flush_calls. cbn. now apply sent_map_none. Qed.

Lemma sent_started (type : jsval) (s : State) :
  sent (effects (platform (started type s))) = sent (effects (platform s)).
Proof.
  unfold started. cbn [platform effects set_peerConnection set_dom set_localStream set_platform].
  rewrite sent_app. cbn [sent]. rewrite sent_map_none by reflexivity. apply app_nil_r.
Qed.

Lemma initiateCall_connected (a : State) (us : list string) (ub t : string) :
  onlineUsers a = Some us -> find_peer us (currentUsername a) = Str ub -> ub <> "" ->
  ws a = true ->
  initiateCall t Granted a
  = (Ret tt,
     add_effects
       ([PcCreateOffer (new_pc a); PcSetLocalDescription (new_pc a) (LocalOffer (new_pc a))]
          ++ [WsSend true (CallOffer (currentUsername a) (Str ub) (Str t)
                             (LocalOffer (new_pc a)))])
       (started (Str t) (dialing (Str ub) a))).
Proof.
  intros Hus Hf Hne Hw. rewrite initiateCall_run, Hus. cbv zeta. rewrite Hf.
  assert (Ht : truthy (Str ub) = true).
  { cbn. destruct (String.eqb_spec ub ""); [contradiction|reflexivity]. }
  rewrite Ht, startLocalStream_granted.
  cbn [isCaller ws dialing set_dom set_isCaller set_currentPeer currentUsername currentPeer].
  now rewrite Hw.
Qed.

Lemma accept_connected (b : State) (o : Offer) :
  pendingOffer b = Some o -> ws b = true ->
  answerCall true Granted b
  = (Ret tt,
     add_effects
       ((flush_calls (new_pc b) (Some (offer_sdp o)) (pendingRemoteCandidates b)
           ++ answer_calls (new_pc b))
          ++ [WsSend false (CallAnswer (currentUsername b) (offer_from_user o) true
                              (Some (LocalAnswer (new_pc b))))])
       (set_pendingRemoteCandidates [] (set_remoteDescriptionSet true
          (started (offer_call_type o) (accepting o b))))).
Proof. intros Ho Hw. rewrite answerCall_run, Ho. cbv zeta. now rewrite Hw. Qed.

Lemma effects_accepted (es : list Effect) (s : State) :
  effects (platform (add_effects es
     (set_pendingRemoteCandidates [] (set_remoteDescriptionSet true s))))
  = effects (platform s) ++ es.
Proof. reflexivity. Qed.

Lemma effects_added (es : list Effect) (s : State) :
  effects (platform (add_effects es s)) = effects (platform s) ++ es.
Proof. reflexivity. Qed.

Lemma platform_offered (o : Offer) (d : Dom) (s : State) :
  platform (accepting o (set_dom d (set_pendingOffer (Some o) s))) = platform s.
Proof. reflexivity. Qed.

Lemma callee_accepts (b : State) (f tu c : jsval) (d : Sdp) :
  currentUsername b = tu -> ws b = true ->
  let o := {| offer_from_user := f; offer_to_user := tu;
              offer_call_type := c; offer_sdp := d |} in
  answerCall true Granted (exec (handleMessage (CallOffer f tu c d)) b)
  = (Ret tt,
     add_effects
       ((flush_calls (new_pc b) (Some d) (pendingRemoteCandidates b) ++ answer_calls (new_pc b))
          ++ [WsSend false (CallAnswer tu f true (Some (LocalAnswer (new_pc b))))])
       (set_pendingRemoteCandidates [] (set_remoteDescriptionSet true
          (started c
             (accepting o
                (set_dom (set_incomingCallModalHidden false
                            (set_callInfo (to_text f ++ " is calling (" ++ to_text c ++ ")")
                               (dom b)))
                   (set_pendingOffer (Some o) b))))))).
Proof.
  intros Ht Hw o.
  assert (E : exec (handleMessage (CallOffer f tu c d)) b
              = set_dom (set_incomingCallModalHidden false
                   (set_callInfo (to_text f ++ " is calling (" ++ to_text c ++ ")") (dom b)))
                  (set_pendingOffer (Some o) b)).
  { unfold exec. rewrite call_offer_run, Ht, strict_eq_refl. reflexivity. }
  rewrite (accept_connected _ o); [| rewrite E; reflexivity | rewrite E; exact Hw].
  rewrite E. cbn [currentUsername set_dom set_pendingOffer]. rewrite Ht. reflexivity.
Qed.

Lemma caller_completes (a : State) (ub t : string) (from_user to_user : jsval) (d : option Sdp) :
  let a1 := add_effects
              ([PcCreateOffer (new_pc a);
                PcSetLocalDescription (new_pc a) (LocalOffer (new_pc a))]
                 ++ [WsSend true (CallOffer (currentUsername a) (Str ub) (Str t)
                                    (LocalOffer (new_pc a)))])
              (started (Str t) (dialing (Str ub) a)) in
  handleMessage (CallAnswer from_user to_user true d) a1
  = (Ret tt,
     set_pendingRemoteCandidates [] (set_remoteDescriptionSet true
       (add_effects (flush_calls (new_pc a) d (pendingRemoteCandidates a)) a1))).
Proof.
  intros a1. cbn [handleMessage]. rewrite handleCallAnswer_run. reflexivity.
Qed.

(** X8: the offer/answer exchange between two clients.  When the caller's
    roster lookup gives the callee's name and both have a socket, the offer
    sent by [initiateCall], handled and accepted by the callee, produces an
    answer which, handled by the caller, completes the exchange: each engine
    was given the other's description, both flags are set, both queues are
    empty, each side has the other as [currentPeer], and [isCaller] tells
    caller from callee. *)
Theorem offer_answer_exchange
    (a b : State) (us : list string) (ub t : string) :
  onlineUsers a = Some us -> find_peer us (currentUsername a) = Str ub -> ub <> "" ->
  ws a = true -> currentUsername b = Str ub -> ws b = true ->
  let offer := CallOffer (currentUsername a) (Str ub) (Str t) (LocalOffer (new_pc a)) in
  let answer := CallAnswer (Str ub) (currentUsername a) true (Some (LocalAnswer (new_pc b))) in
  let a1 := exec (initiateCall t Granted) a in
  let b2 := exec (answerCall true Granted) (exec (handleMessage offer) b) in
  let a2 := exec (handleMessage answer) a1 in
  sent (effects (platform a1)) = sent (effects (platform a)) ++ [offer] /\
  sent (effects (platform b2)) = sent (effects (platform b)) ++ [answer] /\
  effects (platform a2)
  = effects (platform a1)
      ++ flush_calls (new_pc a) (Some (LocalAnswer (new_pc b))) (pendingRemoteCandidates a) /\
  In (PcSetRemoteDescription (new_pc b) (Some (LocalOffer (new_pc a))))
     (effects (platform b2)) /\
  session a2 = (Some (new_pc a), Str ub, true, Some (new_stream (Str t) a)) /\
  session b2 = (Some (new_pc b), currentUsername a, false, Some (new_stream (Str t) b)) /\
  remoteDescriptionSet a2 = true /\ remoteDescriptionSet b2 = true /\
  pendingRemoteCandidates a2 = [] /\ pendingRemoteCandidates b2 = [] /\
  pendingOffer b2 = None.
Proof.
  intros Hus Hf Hne Hwa Hub Hwb offer answer a1 b2 a2.
  assert (Ea2 : a2 = snd (handleMessage answer a1)) by reflexivity.
  assert (Eb2 : b2 = snd (answerCall true Granted (exec (handleMessage offer) b)))
    by reflexivity.
  assert (Ea1 : a1 = snd (initiateCall t Granted a)) by reflexivity.
  clearbody a2 b2 a1.
  rewrite (initiateCall_connected a us ub t Hus Hf Hne Hwa) in Ea1. cbn [snd] in Ea1.
  unfold offer in Eb2. rewrite (callee_accepts b _ _ _ _ Hub Hwb) in Eb2. cbn [snd] in Eb2.
  unfold answer in Ea2. rewrite Ea1, caller_completes in Ea2. cbn [snd] in Ea2.
  rewrite <- Ea1 in Ea2.
  repeat split.
  - rewrite Ea1, effects_added, !sent_app, sent_started. reflexivity.
  - rewrite Eb2, effects_accepted, !sent_app, sent_started, sent_flush, platform_offered.
    reflexivity.
  - rewrite Ea2. reflexivity.
  - rewrite Eb2, effects_accepted.
    apply in_or_app. right. apply in_or_app. left. apply in_or_app. left.
    unfold flush_calls. now left.
  - rewrite Ea2, Ea1. reflexivity.
  - rewrite Eb2. reflexivity.
  - rewrite Ea2. reflexivity.
  - rewrite Eb2. reflexivity.
  - rewrite Ea2. reflexivity.
  - rewrite Eb2. reflexivity.
  - rewrite Eb2. reflexivity.
Qed.

Lemma offer_answer_exchange_witness :
  remoteDescriptionSet
    (exec (handleMessage (CallAnswer (Str "bob") (currentUsername joined) true
                            (Some (LocalAnswer (new_pc joined_bob)))))
          (exec (initiateCall "video" Granted) joined)) = true.
Proof.
  assert (H : "bob" <> "") by discriminate.
  exact (proj1 (proj2 (proj2 (proj2 (proj2 (proj2 (proj2
           (offer_answer_exchange joined joined_bob ["alice"; "bob"; "carol"] "bob" "video"
              eq_refl eq_refl H eq_refl eq_refl eq_refl)))))))).
Defined.

Lemma sent_released (s : State) : sent (released s) = [].
Proof.
  unfold released, stops. rewrite !sent_app.
  destruct (localStream s), (remoteStream s), (peerConnection s);
    rewrite ?sent_map_none by reflexivity; reflexivity.
Qed.

Lemma callee_declines (b : State) (f tu c : jsval) (d : Sdp) (m : MediaResult) :
  currentUsername b = tu -> ws b = true ->
  answerCall false m (exec (handleMessage (CallOffer f tu c d)) b)
  = (Ret tt,
     add_effects [WsSend (isCaller b) (CallAnswer tu f false None)]
       (set_pendingOffer None
          (set_dom (set_incomingCallModalHidden true
                      (set_callInfo (to_text f ++ " is calling (" ++ to_text c ++ ")")
                         (dom b))) b))).
Proof.
  intros Ht Hw.
  assert (E : exec (handleMessage (CallOffer f tu c d)) b
              = set_dom (set_incomingCallModalHidden false
                   (set_callInfo (to_text f ++ " is calling (" ++ to_text c ++ ")") (dom b)))
                  (set_pendingOffer
                     (Some {| offer_from_user := f; offer_to_user := tu;
                              offer_call_type := c; offer_sdp := d |}) b)).
  { unfold exec. rewrite call_offer_run, Ht, strict_eq_refl. reflexivity. }
  rewrite E, answerCall_run. cbv zeta.
  cbn [pendingOffer set_dom set_pendingOffer negb ws].
  rewrite Hw. cbn [currentUsername isCaller offer_from_user set_dom set_pendingOffer].
  rewrite Ht. reflexivity.
Qed.

Lemma caller_declined (a : State) (ub t : string) (from_user to_user : jsval) (d : option Sdp) :
  let a1 := add_effects
              ([PcCreateOffer (new_pc a);
                PcSetLocalDescription (new_pc a) (LocalOffer (new_pc a))]
                 ++ [WsSend true (CallOffer (currentUsername a) (Str ub) (Str t)
                                    (LocalOffer (new_pc a)))])
              (started (Str t) (dialing (Str ub) a)) in
  handleMessage (CallAnswer from_user to_user false d) a1 = endCall a1 /\
  released a1
  = map TrackStop (getTracks (new_stream (Str t) a)) ++ stops (remoteStream a)
      ++ [PcClose (new_pc a)].
Proof.
  intros a1. split; [|reflexivity].
  cbn [handleMessage]. now rewrite handleCallAnswer_run.
Qed.

(** X9: a declined call between two clients.  The callee's
    [answerCall(false)] sends one declining answer back to the caller and
    starts nothing on the callee's side; handling that answer, the caller
    stops the tracks it had acquired, closes its engine and is idle again.
    Its candidate queue and its flag are left as they were. *)
Theorem declined_call_exchange
    (a b : State) (us : list string) (ub t : string) (m : MediaResult) :
  onlineUsers a = Some us -> find_peer us (currentUsername a) = Str ub -> ub <> "" ->
  ws a = true -> currentUsername b = Str ub -> ws b = true ->
  let offer := CallOffer (currentUsername a) (Str ub) (Str t) (LocalOffer (new_pc a)) in
  let decline := CallAnswer (Str ub) (currentUsername a) false None in
  let a1 := exec (initiateCall t Granted) a in
  let b2 := exec (answerCall false m) (exec (handleMessage offer) b) in
  let a2 := exec (handleMessage decline) a1 in
  sent (effects (platform b2)) = sent (effects (platform b)) ++ [decline] /\
  session b2 = session b /\ pendingOffer b2 = None /\
  nextId (platform b2) = nextId (platform b) /\
  outcome (handleMessage decline) a1 = Ret tt /\
  idle a2 /\
  effects (platform a2)
  = effects (platform a1)
      ++ map TrackStop (getTracks (new_stream (Str t) a)) ++ stops (remoteStream a)
      ++ [PcClose (new_pc a)] /\
  pendingRemoteCandidates a2 = pendingRemoteCandidates a /\
  remoteDescriptionSet a2 = remoteDescriptionSet a.
Proof.
  intros Hus Hf Hne Hwa Hub Hwb offer decline a1 b2 a2.
  assert (Ea2 : a2 = snd (handleMessage decline a1)) by reflexivity.
  assert (Eb2 : b2 = snd (answerCall false m (exec (handleMessage offer) b)))
    by reflexivity.
  assert (Ea1 : a1 = snd (initiateCall t Granted a)) by reflexivity.
  clearbody a2 b2 a1.
  rewrite (initiateCall_connected a us ub t Hus Hf Hne Hwa) in Ea1. cbn [snd] in Ea1.
  unfold offer in Eb2. rewrite (callee_declines b _ _ _ _ m Hub Hwb) in Eb2. cbn [snd] in Eb2.
  unfold decline in Ea2.
  destruct (caller_declined a ub t (Str ub) (currentUsername a) None) as [Hd Hrel].
  rewrite Ea1, Hd in Ea2. rewrite endCall_run in Ea2. cbn [snd] in Ea2.
  rewrite Hrel in Ea2. rewrite <- Ea1 in Ea2.
  repeat split; try (rewrite Ea2; reflexivity); try (rewrite Eb2; reflexivity).
  - rewrite Eb2, effects_added, sent_app. reflexivity.
  - unfold outcome, decline. cbn [handleMessage].
    now rewrite handleCallAnswer_run, endCall_run.
  - rewrite Ea2, Ea1. reflexivity.
  - rewrite Ea2, Ea1. reflexivity.
Qed.

Lemma declined_call_exchange_witness :
  peerConnection
    (exec (handleMessage (CallAnswer (Str "bob") (currentUsername joined) false None))
          (exec (initiateCall "video" Granted) joined)) = None.
Proof.
  assert (H : "bob" <> "") by discriminate.
  destruct (proj1 (proj2 (proj2 (proj2 (proj2 (proj2
           (declined_call_exchange joined joined_bob ["alice"; "bob"; "carol"] "bob" "video"
              Granted eq_refl eq_refl H eq_refl eq_refl eq_refl)))))))
    as [Hpc _].
  exact Hpc.
Defined.

(** ** Local candidates *)

Lemma onicecandidate_run (c : option Candidate) (s : State) :
  onicecandidate c s =
  match c with
  | Some x =>
      if ws s then
        (Ret tt,
         add_effects [WsSend (isCaller s) (IceCandidate (currentUsername s) (currentPeer s) x)] s)
      else (Throw (TypeError "this.ws is null"), s)
  | None => (Ret tt, s)
  end.
Proof.
  destruct c as [x|]; [|reflexivity]. unfold onicecandidate.
  do 2 task_step. now rewrite ws_send_run.
Qed.

Lemma endCall_fields (s : State) :
  ws (exec endCall s) = ws s /\
  currentUsername (exec endCall s) = currentUsername s /\
  currentPeer (exec endCall s) = Null /\
  effects (platform (exec endCall s)) = effects (platform s) ++ released s.
Proof. unfold exec. rewrite endCall_run. repeat split. Qed.

(** X10: a locally gathered candidate is sent to [currentPeer] under the
    local name, and the end-of-gathering event sends nothing.  At a peer
    that goes by that name and has an engine, such a message is applied
    when the flag is set and queued otherwise.  A candidate gathered after
    [endCall] is still sent, addressed to [null], and no client that has a
    user name takes it. *)
Theorem candidate_trickle (a b : State) (c : Candidate) (pb : nat) :
  ws a = true -> currentUsername b = currentPeer a -> peerConnection b = Some pb ->
  let msg := IceCandidate (currentUsername a) (currentPeer a) c in
  let late := IceCandidate (currentUsername a) Null c in
  exec (onicecandidate (Some c)) a = add_effects [WsSend (isCaller a) msg] a /\
  exec (onicecandidate None) a = a /\
  exec (handleMessage msg) b
  = (if remoteDescriptionSet b then add_effects [PcAddIceCandidate pb c] b
     else set_pendingRemoteCandidates (pendingRemoteCandidates b ++ [c]) b) /\
  sent (effects (platform (exec (onicecandidate (Some c)) (exec endCall a))))
  = sent (effects (platform a)) ++ [late] /\
  (forall r x, currentUsername r = Str x -> exec (handleMessage late) r = r).
Proof.
  intros Hw Hb Hp msg late. subst msg late.
  destruct (endCall_fields a) as (Ew & Eu & Ep & Ee).
  set (ended := exec endCall a) in *. unfold exec.
  rewrite !onicecandidate_run, Hw, Ew, Hw, ice_candidate_run, Hb, strict_eq_refl, Hp.
  cbn [snd]. repeat split.
  - rewrite effects_added, sent_app, Ee, sent_app, sent_released, Eu, Ep, app_nil_r.
    reflexivity.
  - intros r x Hr. rewrite ice_candidate_run, Hr. reflexivity.
Qed.

Lemma candidate_trickle_witness :
  exec (handleMessage (IceCandidate (currentUsername calling) (currentPeer calling) 4))
       (exec (answerCall true Granted)
          (exec (handleMessage
                   (CallOffer (Str "alice") (Str "bob") (Str "video") (LocalOffer 1)))
                joined_bob))
  = add_effects [PcAddIceCandidate 1 4]
      (exec (answerCall true Granted)
          (exec (handleMessage
                   (CallOffer (Str "alice") (Str "bob") (Str "video") (LocalOffer 1)))
                joined_bob)).
Proof.
  exact (proj1 (proj2 (proj2
           (candidate_trickle calling
              (exec (answerCall true Granted)
                 (exec (handleMessage
                          (CallOffer (Str "alice") (Str "bob") (Str "video") (LocalOffer 1)))
                       joined_bob))
              4 1 eq_refl eq_refl eq_refl)))).
Defined.

(** ** One task at a time, continued *)

Lemma Forall_map_any {A} (P : Effect -> Prop) (f : A -> Effect) (l : list A) :
  (forall a, P (f a)) -> Forall P (map f l).
Proof. intros H. induction l; cbn; constructor; auto. Qed.

Lemma closes_app (l1 l2 : list Effect) : closes (l1 ++ l2) = closes l1 ++ closes l2.
Proof. induction l1 as [|[] l1 IH]; cbn; rewrite ?IH; reflexivity. Qed.

Lemma closes_map_none {A} (f : A -> Effect) (l : list A) :
  (forall a, closes [f a] = []) -> closes (map f l) = [].
Proof.
  intros H. induction l as [|a l IH]; [reflexivity|].
  change (map f (a :: l)) with ([f a] ++ map f l). now rewrite closes_app, H, IH.
Qed.

Ltac any_list :=
  repeat first
    [ apply Forall_nil
    | apply Forall_cons; [cbn; auto |]
    | apply Forall_app; split
    | apply Forall_map_any; intros; exact I ].

Ltac closes_eq :=
  repeat (cbn [closes app]; rewrite ?closes_app, ?closes_map_none by (intros; reflexivity));
  cbn [closes app]; reflexivity.

Ltac split_matches :=
  repeat match goal with
         | |- context [match ?x with _ => _ end] => destruct x
         end.

Ltac frame :=
  unfold step_frame, add_effects, queue_ok, media_coupled, closed_by, current_engine;
  cbn -[closes];
  split; [auto with arith |];
  split; [eexists; split;
            [cbn; rewrite <- ?app_assoc;
             first [reflexivity | symmetry; apply app_nil_r]
            | split; [any_list | split; [any_list | closes_eq]]] |];
  split; [split_matches; cbn;
          first [exact I | split; [reflexivity | first [left; reflexivity | right; lia]]] |];
  split; [intros Hq Hf; first [reflexivity | discriminate | exact (Hq Hf)] |];
  split; [split_matches; cbn; intros Hm; first [exact Hm | contradiction | reflexivity]
         | auto].

Lemma step_frame_holds (e : Event) (s : State) : step_frame e s (exec (step e) s).
Proof.
  unfold exec.
  destruct e as [r u o|c|t m|a m| | |d| |c|st]; cbn [step].
  - unfold joinRoom. open_state s.
    destruct (String.eqb r "" || String.eqb u ""), o; frame.
  - unfold sendMessage. open_state s. destruct (String.eqb c ""), ws0; frame.
  - rewrite initiateCall_run.
    destruct (onlineUsers s) as [us|]; [|open_state s; frame].
    cbv zeta. destruct (truthy (find_peer us (currentUsername s))).
    + destruct m as [|why].
      * rewrite startLocalStream_granted. unfold dialing, started, new_pc, new_stream.
        open_state s. destruct ws0; frame.
      * rewrite startLocalStream_refused. open_state s. frame.
    + open_state s. frame.
  - rewrite answerCall_run. cbv zeta.
    unfold accepting, started, new_pc, new_stream, flush_calls, answer_calls.
    open_state s. destruct pendingOffer0 as [o|]; [|frame].
    destruct a; [destruct m as [|why]|]; destruct ws0; frame.
  - unfold toggleMute. open_state s. destruct localStream0 as [st|]; frame.
  - rewrite endCall_run. unfold released, stops. open_state s.
    destruct localStream0 as [ls|], remoteStream0 as [rs|], peerConnection0 as [p|]; frame.
  - destruct d as [u c|on|on|f t ct sd|f t acc sd|f t c|ty]; cbn [handleMessage].
    + open_state s. frame.
    + open_state s. frame.
    + open_state s. frame.
    + unfold bind, get. destruct (strict_eq t (currentUsername s)); open_state s; frame.
    + rewrite handleCallAnswer_run. destruct acc.
      * unfold flush_calls. open_state s. destruct peerConnection0 as [p|]; frame.
      * rewrite endCall_run. unfold released, stops. open_state s.
        destruct localStream0 as [ls|], remoteStream0 as [rs|], peerConnection0 as [p|];
          frame.
    + unfold bind, get.
      destruct (strict_eq t (currentUsername s)), (peerConnection s) as [p|] eqn:Hp;
        try (open_state s; frame).
      destruct (remoteDescriptionSet s) eqn:Hr; open_state s; subst; frame.
    + open_state s. frame.
  - open_state s. frame.
  - unfold onicecandidate. open_state s. destruct c as [c|]; [destruct ws0|]; frame.
  - open_state s. frame.
Qed.

Lemma closed_by_cases (e : Event) (s : State) :
  closed_by e s = [] \/ closed_by e s = current_engine s.
Proof.
  destruct e as [| | | | | |[| | | |f t [|] d| |]| | |]; cbn; auto.
Qed.

Lemma step_closes (e : Event) (s : State) :
  closes (effects (platform (exec (step e) s)))
  = closes (effects (platform s)) ++ closed_by e s.
Proof.
  destruct (step_frame_holds e s) as (_ & (new & -> & _ & _ & <-) & _).
  apply closes_app.
Qed.

Lemma step_closes_once (e : Event) (s : State) :
  ids_fresh s -> closes_once s -> closes_once (exec (step e) s).
Proof.
  intros [Hfresh _] Hs q. destruct (Hs q) as [Hle Hzero].
  destruct (step_frame_holds e s) as (Hn & _ & Hpc & _).
  rewrite step_closes, count_occ_app.
  destruct (closed_by_cases e s) as [E|E].
  - rewrite E in *. cbn [count_occ]. rewrite Nat.add_0_r. split; [exact Hle|].
    intros [H|H].
    + rewrite H in Hpc. destruct Hpc as [_ [H'|H']]; apply Hzero; [now left | right; lia].
    + apply Hzero. right. lia.
  - unfold current_engine in E. destruct (peerConnection s) as [p|] eqn:Hp.
    + assert (Hnone : peerConnection (exec (step e) s) = None).
      { destruct (peerConnection (exec (step e) s)); [|reflexivity].
        destruct Hpc as [Hc _]. rewrite E in Hc. discriminate. }
      rewrite E. cbn [count_occ]. destruct (Nat.eq_dec p q) as [->|Hne].
      * rewrite (Hzero (or_introl eq_refl)). split; [auto|].
        intros [H|H]; [rewrite Hnone in H; discriminate | lia].
      * rewrite Nat.add_0_r. split; [exact Hle|].
        intros [H|H]; [rewrite Hnone in H; discriminate | apply Hzero; right; lia].
    + rewrite E. cbn [count_occ]. rewrite Nat.add_0_r. split; [exact Hle|].
      intros [H|H].
      * rewrite H in Hpc. destruct Hpc as [_ [H'|H']]; [congruence | apply Hzero; right; lia].
      * apply Hzero. right. lia.
Qed.

Lemma run_closes_once (es : list Event) (s : State) :
  ids_fresh s -> closes_once s -> closes_once (run es s).
Proof.
  revert s. induction es as [|e es IH]; intros s Hf Hc; [exact Hc|].
  cbn. apply IH; [now apply step_summary_holds | now apply step_closes_once].
Qed.

(** ** Engines over a whole run *)

(** X11: over any sequence of tasks from the initial state no engine is
    closed twice, and the engine that is current has not been closed. *)
Theorem engine_closed_at_most_once (es : list Event) (p : nat) :
  count_occ Nat.eq_dec (closes (effects (platform (run es init)))) p <= 1 /\
  (peerConnection (run es init) = Some p ->
   ~ In p (closes (effects (platform (run es init))))).
Proof.
  assert (H : closes_once (run es init)).
  { apply run_closes_once.
    - unfold ids_fresh. cbn. auto.
    - intros q. cbn. auto. }
  destruct (H p) as [H1 H2]. split; [exact H1|].
  intros Hp. apply (count_occ_not_In Nat.eq_dec). apply H2. now left.
Qed.

Lemma engine_closed_at_most_once_witness :
  ~ In 3 (closes (effects (platform (run second_call_trace init)))).
Proof.
  exact (proj2 (engine_closed_at_most_once second_call_trace 3) eq_refl).
Defined.

Lemma step_stale_engine (e : Event) (s : State) (p : nat) :
  p < nextId (platform s) -> peerConnection s <> Some p ->
  p < nextId (platform (exec (step e) s)) /\
  peerConnection (exec (step e) s) <> Some p /\
  count_occ Nat.eq_dec (closes (effects (platform (exec (step e) s)))) p
  = count_occ Nat.eq_dec (closes (effects (platform s))) p.
Proof.
  intros Hlt Hne. destruct (step_frame_holds e s) as (Hn & _ & Hpc & _).
  split; [lia|]. split.
  - intros H. rewrite H in Hpc. destruct Hpc as [_ [H'|H']]; [congruence | lia].
  - rewrite step_closes, count_occ_app.
    destruct (closed_by_cases e s) as [->| ->]; [cbn; lia|].
    unfold current_engine. destruct (peerConnection s) as [q|]; [|cbn; lia].
    cbn [count_occ]. destruct (Nat.eq_dec q p); [congruence | lia].
Qed.

Lemma run_stale_engine (es : list Event) (s : State) (p : nat) :
  p < nextId (platform s) -> peerConnection s <> Some p ->
  count_occ Nat.eq_dec (closes (effects (platform (run es s)))) p
  = count_occ Nat.eq_dec (closes (effects (platform s))) p.
Proof.
  revert s. induction es as [|e es IH]; intros s Hlt Hne; [reflexivity|].
  destruct (step_stale_engine e s p Hlt Hne) as (H1 & H2 & H3).
  change (run (e :: es) s) with (run es (exec (step e) s)).
  rewrite (IH _ H1 H2). exact H3.
Qed.

(** X12: an engine that is replaced without being closed is never closed.
    If a task other than a hang-up takes the current engine out of
    [peerConnection], no later sequence of tasks calls [close] on it. *)
Theorem replaced_engine_never_closed (s : State) (p : nat) (e : Event) (es : list Event) :
  reachable s -> peerConnection s = Some p ->
  closed_by e s = [] -> peerConnection (exec (step e) s) <> Some p ->
  ~ In p (closes (effects (platform (run es (exec (step e) s))))).
Proof.
  intros [es0 ->] Hp Hc Hne.
  assert (Hfresh : ids_fresh (run es0 init)).
  { apply run_ids_fresh. unfold ids_fresh. cbn. auto. }
  assert (Hlt : p < nextId (platform (run es0 init))).
  { destruct Hfresh as [H _]. now rewrite Hp in H. }
  assert (Honce : closes_once (run es0 init)).
  { apply run_closes_once; [unfold ids_fresh; cbn; auto | intros q; cbn; auto]. }
  destruct (Honce p) as [_ Hz].
  destruct (step_frame_holds e (run es0 init)) as (Hn & _).
  apply (count_occ_not_In Nat.eq_dec).
  rewrite run_stale_engine; [| lia | exact Hne].
  rewrite step_closes, Hc, app_nil_r. apply Hz. now left.
Qed.

Lemma replaced_engine_never_closed_witness :
  ~ In 1 (closes (effects (platform
       (run [UiEndCall] (exec (step (UiInitiateCall "audio" Granted)) calling))))).
Proof.
  refine (replaced_engine_never_closed calling 1 (UiInitiateCall "audio" Granted) [UiEndCall]
            reachable_calling eq_refl eq_refl _).
  discriminate.
Defined.

Lemma run_ws (es : list Event) (s : State) :
  ws s = true -> ws (run es s) = true.
Proof.
  revert s. induction es as [|e es IH]; intros s H; [exact H|].
  destruct (step_frame_holds e s) as (_ & _ & _ & _ & _ & Hw).
  cbn. apply IH, Hw, H.
Qed.

(** ** The queue and the flag *)

(** X13: a task run without another task overlapping it keeps the queue
    out of use once the flag is set: if in the state it starts from a set
    [remoteDescriptionSet] means an empty queue, the same is true of the
    state it leaves. *)
Theorem flag_set_queue_empty_kept (e : Event) (s : State) :
  (remoteDescriptionSet s = true -> pendingRemoteCandidates s = []) ->
  remoteDescriptionSet (exec (step e) s) = true ->
  pendingRemoteCandidates (exec (step e) s) = [].
Proof.
  destruct (step_frame_holds e s) as (_ & _ & _ & Hq & _). exact Hq.
Qed.

Lemma flag_set_queue_empty_kept_witness :
  pendingRemoteCandidates
    (exec (step (WsMessage (CallAnswer (Str "bob") (Str "alice") true (Some (RemoteSdp 1)))))
          calling_with_offer) = [].
Proof.
  refine (flag_set_queue_empty_kept
            (WsMessage (CallAnswer (Str "bob") (Str "alice") true (Some (RemoteSdp 1))))
            calling_with_offer _ eq_refl).
  intros H. discriminate H.
Defined.

(** ** Media and engine *)

Lemma media_coupled_meaning (s : State) :
  media_coupled s ->
  (peerConnection s = None <-> localStream s = None) /\
  localVideoSrc (dom s) = option_map stream_id (localStream s).
Proof.
  unfold media_coupled.
  destruct (peerConnection s), (localStream s); try contradiction;
    intros H; cbn; repeat split; auto; discriminate.
Qed.

(** X14: a task run without another task overlapping it keeps engine,
    local stream and preview together: if, where it starts,
    [peerConnection] is null exactly when [localStream] is and the preview
    shows the local stream, the same holds where it ends.  And over any run
    [remoteStream] stays null, so [endCall] has no remote track to stop. *)
Theorem media_and_engine_coupled (e : Event) (s : State) (es : list Event) :
  (media_coupled s ->
   media_coupled (exec (step e) s) /\
   (peerConnection (exec (step e) s) = None <-> localStream (exec (step e) s) = None) /\
   localVideoSrc (dom (exec (step e) s))
   = option_map stream_id (localStream (exec (step e) s))) /\
  ((peerConnection s = None <-> localStream s = None) ->
   localVideoSrc (dom s) = option_map stream_id (localStream s) ->
   media_coupled s) /\
  remoteStream (run es init) = None /\
  stops (remoteStream (run es init)) = [].
Proof.
  assert (Hr : remoteStream (run es init) = None).
  { apply reachable_remoteStream. now exists es. }
  split; [|split; [|split]].
  - intros H. destruct (step_frame_holds e s) as (_ & _ & _ & _ & Hm & _).
    split; [exact (Hm H) | exact (media_coupled_meaning _ (Hm H))].
  - unfold media_coupled. intros [H1 H2] H3.
    destruct (peerConnection s), (localStream s); cbn in *; auto.
    + discriminate (H2 eq_refl).
    + discriminate (H1 eq_refl).
  - exact Hr.
  - now rewrite Hr.
Qed.

Lemma media_and_engine_coupled_witness :
  peerConnection (exec (step UiEndCall) calling) = None <->
  localStream (exec (step UiEndCall) calling) = None.
Proof.
  exact (proj1 (proj2 (proj1 (media_and_engine_coupled UiEndCall calling []) eq_refl))).
Defined.

(** ** What is sent *)

Lemma step_sent_without_socket (e : Event) (s : State) :
  ws s = false ->
  sent (effects (platform (exec (step e) s))) = sent (effects (platform s)).
Proof.
  intros Hw. destruct (step_frame_holds e s) as (_ & (new & -> & _ & Hs & _) & _).
  rewrite sent_app. enough (sent new = []) as -> by apply app_nil_r.
  induction Hs as [|x l Hx _ IH]; [reflexivity|].
  destruct x; cbn in *; auto. congruence.
Qed.

Lemma run_sent_without_socket (es : list Event) (s : State) :
  ws (run es s) = false ->
  sent (effects (platform (run es s))) = sent (effects (platform s)).
Proof.
  revert s. induction es as [|e es IH]; intros s Hw; [reflexivity|].
  change (run (e :: es) s) with (run es (exec (step e) s)) in *.
  rewrite (IH _ Hw). apply step_sent_without_socket.
  destruct (ws s) eqn:E; [|reflexivity].
  destruct (step_frame_holds e s) as (_ & _ & _ & _ & _ & Hmono).
  rewrite (run_ws es _ (Hmono E)) in Hw. discriminate.
Qed.

(** X15: every [call_offer], [call_answer] and [ice_candidate] a task sends
    carries as [from_user] the user name the application had when the task
    started, and a task sends only if a socket existed when it started. *)
Theorem signalling_under_own_name (e : Event) (s : State) :
  exists new,
    effects (platform (exec (step e) s)) = effects (platform s) ++ new /\
    Forall (from_me (currentUsername s)) new /\
    Forall (needs_socket s) new.
Proof.
  destruct (step_frame_holds e s) as (_ & (new & E & Hf & Hs & _) & _). now exists new.
Qed.

(** X16: as long as no socket has been created, nothing has been sent over
    any run; and in a state without a socket every task that gets to a
    send fails there with a [TypeError]: [sendMessage] with a non-empty
    text and [onicecandidate] with a candidate (leaving the state as it
    was), [answerCall] with an offer pending, declining or accepting with
    media granted, and [initiateCall] with a peer to call and media
    granted. *)
Theorem nothing_sent_without_socket (es : list Event) (s : State) :
  (ws (run es init) = false -> sent (effects (platform (run es init))) = []) /\
  (ws s = false ->
   let failed := Throw (TypeError "this.ws is null") in
   (forall c, c <> "" -> sendMessage c s = (failed, s)) /\
   (forall c, onicecandidate (Some c) s = (failed, s)) /\
   (forall o a, pendingOffer s = Some o -> outcome (answerCall a Granted) s = failed) /\
   (forall o m, pendingOffer s = Some o -> outcome (answerCall false m) s = failed) /\
   (forall us t, onlineUsers s = Some us ->
      truthy (find_peer us (currentUsername s)) = true ->
      outcome (initiateCall t Granted) s = failed)).
Proof.
  split; [apply run_sent_without_socket|].
  intros Hw failed. subst failed. repeat split.
  - intros c Hc. unfold sendMessage.
    destruct (String.eqb_spec c ""); [contradiction|]. now rewrite ws_send_run, Hw.
  - intros c. now rewrite onicecandidate_run, Hw.
  - intros o a Ho. unfold outcome. rewrite answerCall_run, Ho. cbv zeta. rewrite Hw.
    now destruct a.
  - intros o m Ho. unfold outcome. rewrite answerCall_run, Ho. cbv zeta. now rewrite Hw.
  - intros us t Hus Hp. unfold outcome.
    rewrite initiateCall_run, Hus. cbv zeta. rewrite Hp, startLocalStream_granted.
    cbn [isCaller ws dialing set_dom set_isCaller set_currentPeer]. now rewrite Hw.
Qed.

Lemma nothing_sent_without_socket_witness :
  sent (effects (platform
    (run [WsMessage (Join ["alice"; "bob"]); UiInitiateCall "video" Granted;
          UiSendMessage "hello"; UiJoinRoom "" "alice" true]
         init))) = [] /\
  sendMessage "hello" init = (Throw (TypeError "this.ws is null"), init).
Proof.
  assert (H : "hello" <> "") by discriminate.
  split.
  - exact (proj1 (nothing_sent_without_socket
                    [WsMessage (Join ["alice"; "bob"]); UiInitiateCall "video" Granted;
                     UiSendMessage "hello"; UiJoinRoom "" "alice" true] init) eq_refl).
  - exact (proj1 (proj2 (nothing_sent_without_socket [] init) eq_refl) "hello" H).
Defined.

(** ** Theme preference *)

(** X17: the theme survives a reload.  After [toggleTheme] the stored value
    names the theme shown; loading the page again with that storage makes
    the body dark exactly when the page is served dark or the theme last
    chosen was dark, with the dark caption in the latter case.  Toggling
    twice more changes nothing.  A first visit, an empty or unknown stored
    value, or a page without the toggle button leave the page as served. *)
Theorem theme_round_trip (t : Theme) (htmlDark : bool) (htmlCaption : string) :
  let chosen := toggleTheme t in
  let served := {| bodyDark := htmlDark; toggleCaption := htmlCaption;
                   storedTheme := storedTheme chosen |} in
  storedTheme chosen = Some (if bodyDark chosen then "dark" else "light") /\
  bodyDark chosen = negb (bodyDark t) /\
  bodyDark (loadPage htmlDark htmlCaption true chosen) = htmlDark || bodyDark chosen /\
  (bodyDark chosen = true ->
   toggleCaption (loadPage htmlDark htmlCaption true chosen) = toggleCaption chosen) /\
  storedTheme (loadPage htmlDark htmlCaption true chosen) = storedTheme chosen /\
  toggleTheme (toggleTheme chosen) = chosen /\
  loadPage htmlDark htmlCaption false chosen = served /\
  (forall v, v <> "dark" ->
     bindTheme true {| bodyDark := htmlDark; toggleCaption := htmlCaption;
                       storedTheme := Some v |}
     = {| bodyDark := htmlDark; toggleCaption := htmlCaption; storedTheme := Some v |}) /\
  bindTheme true {| bodyDark := htmlDark; toggleCaption := htmlCaption; storedTheme := None |}
  = {| bodyDark := htmlDark; toggleCaption := htmlCaption; storedTheme := None |}.
Proof.
  cbv zeta. unfold loadPage, bindTheme, toggleTheme, or_default.
  cbn [bodyDark toggleCaption storedTheme].
  destruct (bodyDark t); cbn; repeat split; auto.
  - now destruct htmlDark.
  - discriminate.
  - intros v Hv. destruct (String.eqb_spec v ""); [subst; reflexivity|].
    destruct (String.eqb_spec v "dark"); [contradiction | reflexivity].
  - now rewrite orb_true_r.
  - intros v Hv. destruct (String.eqb_spec v ""); [subst; reflexivity|].
    destruct (String.eqb_spec v "dark"); [contradiction | reflexivity].
Qed.

Lemma theme_round_trip_witness :
  bodyDark (loadPage false "" true
              (toggleTheme {| bodyDark := false; toggleCaption := ""; storedTheme := None |}))
  = true.
Proof.
  exact (proj1 (proj2 (proj2
           (theme_round_trip {| bodyDark := false; toggleCaption := ""; storedTheme := None |}
              false "")))).
Defined.

End ChatApp.
